(** * Sparkify ETL: a shallow embedding of [etl.py] and [sql_queries.py]

    The development follows the two source files.

    - [sql_queries.py] gives the statements.  Their text is kept verbatim
      (the number of [%s] placeholders is computed from it) and each one is
      given its meaning on the five tables.
    - [etl.py] gives [get_files], [copy_from_stringio], [process_song_file],
      [process_log_file] and [process_data].  They are written in a small
      state-and-exception monad over the database session.

    What belongs to Python, pandas, psycopg2, the store or the operating
    system and is not code of the repository is collected in the record
    [Library]: float printing, [os.path.abspath], [glob.glob], the range
    and the [.dt] accessors of a timestamp column, the text that [to_csv]
    writes for a cell and what COPY reads from such a text.  Every theorem
    holds for every [Library].

    A log file is given by the data frame that [pd.read_json] makes of it:
    its rows hold the cells as pandas types them, column by column over the
    whole file.

    Not modelled: [print] output, the server-generated [songplay_id], the
    coercion of a value bound to a placeholder to its column type (a cell
    written by a statement holds the value as it was bound), a tab or a
    line end inside a bulk-loaded cell, the refusal of further statements
    by a transaction in which one has failed (in this program a failed
    statement is followed by a rollback or by nothing), and loss of the
    connection. *)

From Stdlib Require Import List String Ascii ZArith Bool Lia PeanoNat.
From Stdlib Require Import Sorted Permutation DecimalString.
Import ListNotations.
Open Scope string_scope.
Open Scope list_scope.
#[local] Set Warnings "-register-all".

(* ================================================================= *)
(** ** The library the program runs on *)

Record Library : Type := {
  (** Python floats (IEEE doubles, NaN included). *)
  pyfloat : Type;
  pyfloat_eq_dec : forall x y : pyfloat, {x = y} + {x <> y};
  (** [str(x)] for a float [x]. *)
  float_str : pyfloat -> string;
  (** [os.path.abspath]. *)
  abspath : string -> string;
  (** [glob.glob(pathname)] over the directories that can be listed:
      [glob_glob ls pathname], where [ls path] gives the entries of the
      directory at [path], each with the flag of a directory.  The whole
      [pathname] is the pattern. *)
  glob_glob : (string -> option (list (string * bool))) -> string -> list string;
  (** Does [pd.to_datetime(ts, unit='ms')] accept the integer [ts]; it
      raises [OutOfBoundsDatetime] otherwise. *)
  datetime_ok : Z -> bool;
  (** The [.dt] accessors on a timestamp given in epoch milliseconds. *)
  dt_hour : Z -> Z;
  dt_day : Z -> Z;
  dt_week : Z -> Z;
  dt_month : Z -> Z;
  dt_year : Z -> Z;
  dt_weekday : Z -> Z;
  (** Is the float a NaN: the missing value of a numeric column. *)
  is_nan : pyfloat -> bool;
  (** The text [to_csv] writes for a timestamp, and for a string cell
      (quoted and escaped where the writer finds it necessary). *)
  timestamp_str : Z -> string;
  csv_field : string -> string;
  (** What COPY reads from the text of a field that is not the null
      string, for an [int], a [timestamp] and a [varchar] column; [None]
      when the store rejects the text. *)
  pg_int_in : string -> option Z;
  pg_timestamp_in : string -> option Z;
  pg_text_in : string -> option string
}.

(* ================================================================= *)
(** ** Exceptions and results *)

Inductive exn : Type :=
| KeyError (k : string)       (* df['k'] on a Series without the label *)
| IndexError                  (* fewer parameters than placeholders *)
| TypeError                   (* more parameters than placeholders *)
| AttributeError              (* .strip on something that is no str, a frame without the column *)
| OutOfBoundsDatetime         (* pd.to_datetime on a value out of range *)
| ValueError                  (* pd.read_json on what is no such document *)
| FileNotFoundError           (* opening a path that does not exist *)
| NotADirectoryError          (* listing a path that is a file *)
| IntegrityError              (* NOT NULL or key violation in the store *)
| ProgrammingError            (* fetch from a cursor that holds no result, a column named twice *)
| DataError                   (* a copied line with too few or too many cells, a text the column type rejects *)
| UndefinedColumn             (* copy into a column that is not there *)
| UndefinedTable.             (* copy into a relation that is not there *)

Inductive result (A : Type) : Type :=
| Ok (a : A)
| Raise (e : exn).
Arguments Ok {A} a.
Arguments Raise {A} e.

(* ================================================================= *)
(** ** Strings and paths *)

(** [s.endswith(suffix)] *)
Definition endswith (s suffix : string) : bool :=
  let n := String.length s in
  let k := String.length suffix in
  if Nat.leb k n then String.eqb (substring (n - k) k s) suffix else false.

(** [os.path.join(a, b)] on a POSIX system, for a [b] that is a directory
    entry name or a pattern (never absolute). *)
Definition path_join (a b : string) : string :=
  if String.eqb a "" then b
  else if endswith a "/" then (a ++ b)%string
  else (a ++ "/" ++ b)%string.

(** [s.strip(q)] for [q] the double-quote character: every leading and
    every trailing double quote goes. *)
Definition dquote : ascii := Ascii.ascii_of_nat 34.

Fixpoint lstrip_quote (s : string) : string :=
  match s with
  | String c r => if Ascii.eqb c dquote then lstrip_quote r else s
  | EmptyString => EmptyString
  end.

Fixpoint rstrip_quote (s : string) : string :=
  match s with
  | EmptyString => EmptyString
  | String c r =>
      match rstrip_quote r with
      | EmptyString => if Ascii.eqb c dquote then EmptyString else String c EmptyString
      | r' => String c r'
      end
  end.

Definition strip_quote (s : string) : string := rstrip_quote (lstrip_quote s).

(** [str(z)] for an integer. *)
Definition int_str (z : Z) : string := NilZero.string_of_int (Z.to_int z).

(** Number of (non-overlapping) occurrences of the two characters [%s]. *)
Fixpoint count_placeholders (s : string) : nat :=
  match s with
  | String "%" (String "s" r) => S (count_placeholders r)
  | String _ r => count_placeholders r
  | EmptyString => 0
  end.

(* ================================================================= *)
(** ** State and exceptions

    A computation takes the state, and gives back a value or the exception
    it raised together with the state it left behind: what was done before
    an exception stays done. *)

Definition M (S A : Type) : Type := S -> result A * S.

Definition ret {S A : Type} (a : A) : M S A := fun s => (Ok a, s).

Definition raise {S A : Type} (e : exn) : M S A := fun s => (Raise e, s).

Definition bind {S A B : Type} (m : M S A) (k : A -> M S B) : M S B :=
  fun s =>
    match m s with
    | (Ok a, s') => k a s'
    | (Raise e, s') => (Raise e, s')
    end.

Definition lift {S A : Type} (r : result A) : M S A := fun s => (r, s).

(** [try: body  except Exception as e: handler(e)] *)
Definition try_except {S A : Type} (body : M S A) (handler : exn -> M S A) : M S A :=
  fun s =>
    match body s with
    | (Ok a, s') => (Ok a, s')
    | (Raise e, s') => handler e s'
    end.

Notation "x <- c1 ;; c2" := (bind c1 (fun x => c2))
  (at level 61, c1 at next level, right associativity).
Notation "c1 ;; c2" := (bind c1 (fun _ => c2))
  (at level 61, right associativity).

(** [for x in l: body(x)] *)
Fixpoint for_each {S A : Type} (l : list A) (body : A -> M S unit) : M S unit :=
  match l with
  | [] => ret tt
  | x :: r => body x ;; for_each r body
  end.

(** A loop that carries a value from one turn to the next. *)
Fixpoint for_fold {S A B : Type} (l : list A) (acc : B) (body : B -> A -> M S B) : M S B :=
  match l with
  | [] => ret acc
  | x :: r => acc' <- body acc x ;; for_fold r acc' body
  end.

(* ================================================================= *)
(** ** The program, over a library [L] *)

Section Model.

Variable L : Library.

(* ----------------------------------------------------------------- *)
(** *** Values *)

(** What a JSON document or a data frame cell holds, and what is bound to
    a placeholder.  [PNone] is Python's [None] (the missing value of a
    column of strings; that of a column of numbers is the float NaN);
    bound to a placeholder it is SQL's NULL. *)
Inductive pyval : Type :=
| PNone
| PStr (s : string)
| PInt (z : Z)
| PFloat (x : pyfloat L)
| PTimestamp (ms : Z).

Definition pyval_eqb (v w : pyval) : bool :=
  match v, w with
  | PNone, PNone => true
  | PStr a, PStr b => String.eqb a b
  | PInt a, PInt b => Z.eqb a b
  | PFloat a, PFloat b => if pyfloat_eq_dec L a b then true else false
  | PTimestamp a, PTimestamp b => Z.eqb a b
  | _, _ => false
  end.

Definition is_null (v : pyval) : bool :=
  match v with PNone => true | _ => false end.

(** SQL's [=] in a WHERE or ON clause and in a key comparison: never true
    when a side is NULL. *)
Definition sql_eq (v w : pyval) : bool :=
  negb (is_null v) && negb (is_null w) && pyval_eqb v w.

(** One row of the frame of a log file.  The columns are those the
    program reads; [ts] is the int64 column of epoch milliseconds and
    [length] the float64 one.  The other cells are held as pandas holds
    them in the frame: a column of integers in which a line has no value
    is a column of floats, with NaN for the missing one. *)
Record event : Type := {
  ts : Z;
  page : pyval;
  userId : pyval;
  firstName : pyval;
  lastName : pyval;
  gender : pyval;
  level : pyval;
  song : pyval;
  artist : pyval;
  length_ : pyfloat L;
  sessionId : pyval;
  location : pyval;
  userAgent : pyval
}.

(* ----------------------------------------------------------------- *)
(** *** The file store *)

Inductive content : Type :=
| JsonObject (fields : list (string * pyval))   (* one object: a song file *)
| JsonLines (events : list event)               (* a log file: the rows of its frame *)
| Malformed.

Inductive node : Type :=
| File (c : content)
| Dir (entries : list (string * node)).

(** What the operating system finds at a path. *)
Definition filesystem : Type := string -> option node.

Definition is_dir (n : node) : bool :=
  match n with Dir _ => true | File _ => false end.

Definition dirnames (es : list (string * node)) : list string :=
  map fst (filter (fun e => is_dir (snd e)) es).

Definition filenames (es : list (string * node)) : list string :=
  map fst (filter (fun e => negb (is_dir (snd e))) es).

(** One item of [os.walk]: [(root, dirs, files)]. *)
Definition walk_item : Type := (string * list string * list string)%type.

Definition walk_root (w : walk_item) : string := fst (fst w).

(** [os.walk] below a directory that was listed: top-down, the directory
    itself first, then each subdirectory in turn.  Nothing here looks at an
    exclusion. *)
Fixpoint walk (top : string) (n : node) : list walk_item :=
  match n with
  | File _ => []
  | Dir es =>
      (top, dirnames es, filenames es)
        :: flat_map (fun e => walk (path_join top (fst e)) (snd e)) es
  end.

(** [os.scandir(top)] *)
Definition scandir (fs : filesystem) (top : string) : result (list (string * node)) :=
  match fs top with
  | Some (Dir es) => Ok es
  | Some (File _) => Raise NotADirectoryError
  | None => Raise FileNotFoundError
  end.

(** [os.walk(top)] with its default [onerror=None]: when [top] cannot be
    listed the error is dropped and the walk is empty. *)
Definition os_walk (fs : filesystem) (top : string) : list walk_item :=
  match scandir fs top with
  | Ok es => walk top (Dir es)
  | Raise _ => []
  end.

(** What can be listed in the file store: the entries of the directory
    at a path, each with the flag of a directory. *)
Definition listing (fs : filesystem) (path : string) : option (list (string * bool)) :=
  match fs path with
  | Some (Dir es) => Some (map (fun e => (fst e, is_dir (snd e))) es)
  | _ => None
  end.

(** [glob.glob(os.path.join(root, filemask))] *)
Definition glob (fs : filesystem) (root filemask : string) : list string :=
  glob_glob L (listing fs) (path_join root filemask).

(** The [exclude] argument: a [str], or a tuple of them as the docstring
    allows. *)
Inductive exclude_arg : Type :=
| ExcludeStr (s : string)
| ExcludeTuple (l : list string).

(** Python truth of [exclude]. *)
Definition truthy (x : exclude_arg) : bool :=
  match x with
  | ExcludeStr s => negb (String.eqb s "")
  | ExcludeTuple l => match l with [] => false | _ => true end
  end.

(** [root.endswith(exclude)] *)
Definition endswith_arg (root : string) (x : exclude_arg) : bool :=
  match x with
  | ExcludeStr s => endswith root s
  | ExcludeTuple l => existsb (endswith root) l
  end.

(** [get_files(filepath, filemask, exclude)] (etl.py, lines 8-30). *)
Definition get_files (fs : filesystem) (filepath filemask : string)
    (exclude : exclude_arg) : result (list string) :=
  let all_files :=
    fold_left
      (fun (all_files : list string) (w : walk_item) =>
         let root := walk_root w in
         let files :=
           if truthy exclude && endswith_arg root exclude then []
           else glob fs root filemask in
         fold_left (fun acc f => acc ++ [abspath L f]) files all_files)
      (os_walk fs filepath) [] in
  Ok all_files.

(** What one directory of the walk adds to the result of [get_files]
    (used to state what the loop computes). *)
Definition contribution (fs : filesystem) (filemask : string) (exclude : exclude_arg)
    (w : walk_item) : list string :=
  if truthy exclude && endswith_arg (walk_root w) exclude then []
  else map (abspath L) (glob fs (walk_root w) filemask).

(* ----------------------------------------------------------------- *)
(** *** The tables (sql_queries.py, lines 11-67) *)

Record song_row : Type := {
  s_song_id : pyval;          (* varchar PRIMARY KEY *)
  s_title : pyval;
  s_artist_id : pyval;
  s_year : pyval;
  s_duration_str : pyval;
  s_duration_float : pyval
}.

Record artist_row : Type := {
  a_artist_id : pyval;        (* varchar PRIMARY KEY *)
  a_name : pyval;
  a_location : pyval;
  a_latitude : pyval;
  a_longitude : pyval
}.

Record time_row : Type := {
  t_start_time : pyval;       (* timestamp PRIMARY KEY *)
  t_hour : pyval;             (* the six below: NOT NULL *)
  t_day : pyval;
  t_week : pyval;
  t_month : pyval;
  t_year : pyval;
  t_weekday : pyval
}.

Record user_row : Type := {
  u_user_id : pyval;          (* int PRIMARY KEY *)
  u_first_name : pyval;
  u_last_name : pyval;
  u_gender : pyval;
  u_level : pyval
}.

Record songplay_row : Type := {
  sp_start_time : pyval;      (* NOT NULL *)
  sp_user_id : pyval;         (* NOT NULL *)
  sp_level : pyval;           (* NOT NULL *)
  sp_song_id : pyval;
  sp_artist_id : pyval;
  sp_session_id : pyval;
  sp_location : pyval;
  sp_user_agent : pyval
}.

Record tables : Type := {
  songs : list song_row;
  artists : list artist_row;
  time : list time_row;
  users : list user_row;
  songplays : list songplay_row
}.

Definition set_songs (db : tables) (x : list song_row) : tables :=
  {| songs := x; artists := artists db; time := time db;
     users := users db; songplays := songplays db |}.

Definition set_artists (db : tables) (x : list artist_row) : tables :=
  {| songs := songs db; artists := x; time := time db;
     users := users db; songplays := songplays db |}.

Definition set_time (db : tables) (x : list time_row) : tables :=
  {| songs := songs db; artists := artists db; time := x;
     users := users db; songplays := songplays db |}.

Definition set_users (db : tables) (x : list user_row) : tables :=
  {| songs := songs db; artists := artists db; time := time db;
     users := x; songplays := songplays db |}.

Definition set_songplays (db : tables) (x : list songplay_row) : tables :=
  {| songs := songs db; artists := artists db; time := time db;
     users := users db; songplays := x |}.

(** Is there a row whose key column equals [k]? *)
Definition has_key {R : Type} (key : R -> pyval) (k : pyval) (rows : list R) : bool :=
  existsb (fun r => sql_eq (key r) k) rows.

(* ----------------------------------------------------------------- *)
(** *** The statements (sql_queries.py, lines 69-128) *)

Inductive statement : Type :=
| user_table_insert
| song_table_insert
| artist_table_insert
| time_table_insert
| song_select.

(** The text of each statement, as the module holds it. *)
Definition sql_text (q : statement) : string :=
  match q with
  | user_table_insert => "
INSERT INTO users (user_id, first_name, last_name, gender, level)
VALUES (%s, %s, %s, %s, %s)
ON CONFLICT (user_id) DO UPDATE SET
    level = EXCLUDED.level;
"
  | song_table_insert => "
INSERT INTO songs (song_id, title, artist_id, year, duration_str, duration_float)
VALUES (%s, %s, %s, %s, %s, %s)
ON CONFLICT (song_id) DO NOTHING;
"
  | artist_table_insert => "
INSERT INTO artists (artist_id, name, location, latitude, longitude)
VALUES (%s, %s, %s, %s, %s)
ON CONFLICT (artist_id) DO NOTHING;
"
  | time_table_insert => "
INSERT INTO time (start_time, hour, day, week, month, year, weekday)
VALUES (TIMESTAMP %s, %s, %s, %s, %s, %s, %s)
ON CONFLICT (start_time) DO NOTHING;
"
  | song_select => "
SELECT s.song_id, s.artist_id FROM songs AS s JOIN artists AS a ON s.artist_id = a.artist_id WHERE s.title = %s AND a.name = %s AND s.duration_str = %s;
"
  end.

Definition placeholders (q : statement) : nat := count_placeholders (sql_text q).

(** psycopg2 fills the placeholders from the parameter sequence, one after
    the other: too few parameters is an [IndexError] when the missing one
    is looked up, too many a [TypeError] when the text is formatted.
    Nothing is sent to the store in either case. *)
Definition mogrify (q : statement) (params : list pyval) : result (list pyval) :=
  if Nat.ltb (List.length params) (placeholders q) then Raise IndexError
  else if Nat.ltb (placeholders q) (List.length params) then Raise TypeError
  else Ok params.

(** [INSERT INTO users ... ON CONFLICT (user_id) DO UPDATE SET level =
    EXCLUDED.level] *)
Definition set_level (u : user_row) (v : pyval) : user_row :=
  {| u_user_id := u_user_id u; u_first_name := u_first_name u;
     u_last_name := u_last_name u; u_gender := u_gender u; u_level := v |}.

Definition insert_user (r : user_row) (db : tables) : result tables :=
  if is_null (u_user_id r) then Raise IntegrityError
  else if has_key u_user_id (u_user_id r) (users db) then
    Ok (set_users db
          (map (fun u => if sql_eq (u_user_id u) (u_user_id r)
                         then set_level u (u_level r) else u)
               (users db)))
  else Ok (set_users db (users db ++ [r])).

(** [INSERT INTO songs ... ON CONFLICT (song_id) DO NOTHING] *)
Definition insert_song (r : song_row) (db : tables) : result tables :=
  if is_null (s_song_id r) then Raise IntegrityError
  else if has_key s_song_id (s_song_id r) (songs db) then Ok db
  else Ok (set_songs db (songs db ++ [r])).

(** [INSERT INTO artists ... ON CONFLICT (artist_id) DO NOTHING] *)
Definition insert_artist (r : artist_row) (db : tables) : result tables :=
  if is_null (a_artist_id r) then Raise IntegrityError
  else if has_key a_artist_id (a_artist_id r) (artists db) then Ok db
  else Ok (set_artists db (artists db ++ [r])).

(** [INSERT INTO time ... ON CONFLICT (start_time) DO NOTHING] *)
Definition insert_time (r : time_row) (db : tables) : result tables :=
  if is_null (t_start_time r) || is_null (t_hour r) || is_null (t_day r)
     || is_null (t_week r) || is_null (t_month r) || is_null (t_year r)
     || is_null (t_weekday r)
  then Raise IntegrityError
  else if has_key t_start_time (t_start_time r) (time db) then Ok db
  else Ok (set_time db (time db ++ [r])).

(** [SELECT s.song_id, s.artist_id FROM songs AS s JOIN artists AS a ON
    s.artist_id = a.artist_id WHERE s.title = %s AND a.name = %s AND
    s.duration_str = %s], the rows in the order of a nested loop. *)
Definition select_song (title name duration : pyval) (db : tables) : list (list pyval) :=
  flat_map
    (fun s =>
       flat_map
         (fun a =>
            if sql_eq (s_artist_id s) (a_artist_id a)
               && sql_eq (s_title s) title
               && sql_eq (a_name a) name
               && sql_eq (s_duration_str s) duration
            then [[s_song_id s; s_artist_id s]] else [])
         (artists db))
    (songs db).

(** A statement with its placeholders filled, run on the tables: the new
    tables and, for a query, its rows. *)
Definition run (q : statement) (args : list pyval) (db : tables)
  : result (tables * option (list (list pyval))) :=
  match q, args with
  | user_table_insert, [a; b; c; d; e] =>
      match insert_user {| u_user_id := a; u_first_name := b; u_last_name := c;
                           u_gender := d; u_level := e |} db with
      | Ok db' => Ok (db', None)
      | Raise x => Raise x
      end
  | song_table_insert, [a; b; c; d; e; f] =>
      match insert_song {| s_song_id := a; s_title := b; s_artist_id := c;
                           s_year := d; s_duration_str := e;
                           s_duration_float := f |} db with
      | Ok db' => Ok (db', None)
      | Raise x => Raise x
      end
  | artist_table_insert, [a; b; c; d; e] =>
      match insert_artist {| a_artist_id := a; a_name := b; a_location := c;
                             a_latitude := d; a_longitude := e |} db with
      | Ok db' => Ok (db', None)
      | Raise x => Raise x
      end
  | time_table_insert, [a; b; c; d; e; f; g] =>
      match insert_time {| t_start_time := a; t_hour := b; t_day := c;
                           t_week := d; t_month := e; t_year := f;
                           t_weekday := g |} db with
      | Ok db' => Ok (db', None)
      | Raise x => Raise x
      end
  | song_select, [a; b; c] => Ok (db, Some (select_song a b c db))
  | _, _ => Raise ProgrammingError
  end.

(* ----------------------------------------------------------------- *)
(** *** The connection and its cursor *)

(** [committed] is what the store holds for good, [working] what the open
    transaction sees, [result_set] what the cursor [cur] has left to
    fetch. *)
Record session : Type := {
  committed : tables;
  working : tables;
  result_set : option (list (list pyval))
}.

Definition DB (A : Type) : Type := M session A.

(** [cur.execute(q, params)] *)
Definition execute (q : statement) (params : list pyval) : DB unit :=
  fun c =>
    match mogrify q params with
    | Raise e => (Raise e, c)
    | Ok args =>
        match run q args (working c) with
        | Raise e => (Raise e, c)
        | Ok (db', rs) =>
            (Ok tt, {| committed := committed c; working := db'; result_set := rs |})
        end
    end.

(** [cur.fetchone()] *)
Definition fetchone : DB (option (list pyval)) :=
  fun c =>
    match result_set c with
    | None => (Raise ProgrammingError, c)
    | Some [] => (Ok None, c)
    | Some (r :: rest) =>
        (Ok (Some r),
         {| committed := committed c; working := working c; result_set := Some rest |})
    end.

(** [conn.commit()] *)
Definition commit : DB unit :=
  fun c => (Ok tt, {| committed := working c; working := working c;
                      result_set := result_set c |}).

(** [conn.rollback()] *)
Definition rollback : DB unit :=
  fun c => (Ok tt, {| committed := committed c; working := committed c;
                      result_set := result_set c |}).

(* ----------------------------------------------------------------- *)
(** *** Bulk load (etl.py, lines 32-56) *)

(** The text of a cell in the buffer that [df.to_csv(buffer, sep=tab,
    na_rep='NULL', ...)] writes: a missing value, [None] or NaN, is
    written as [NULL]. *)
Definition csv_text (v : pyval) : string :=
  match v with
  | PNone => "NULL"
  | PStr s => csv_field L s
  | PInt z => int_str z
  | PFloat x => if is_nan L x then "NULL" else float_str L x
  | PTimestamp ms => timestamp_str L ms
  end.

(** The buffer: one line for each row of the frame, one field for each
    cell. *)
Definition to_csv (df : list (list pyval)) : list (list string) :=
  map (map csv_text) df.

Definition songplays_columns : list string :=
  ["songplay_id"; "start_time"; "user_id"; "level"; "song_id"; "artist_id";
   "session_id"; "location"; "user_agent"].

(** The column list of a COPY, name by name: every name is a column of the
    table, and none comes twice. *)
Fixpoint check_columns (seen cols : list string) : option exn :=
  match cols with
  | [] => None
  | x :: rest =>
      if negb (existsb (String.eqb x) songplays_columns) then Some UndefinedColumn
      else if existsb (String.eqb x) seen then Some ProgrammingError
      else check_columns (x :: seen) rest
  end.

(** What COPY with [null='NULL'] reads from one field for the column
    [col] of [songplays] (sql_queries.py, lines 11-23): the null string is
    NULL, any other text goes through the input of the type of the column. *)
Definition copy_field (col text : string) : result pyval :=
  if String.eqb text "NULL" then Ok PNone
  else
    let value :=
      if String.eqb col "start_time" then option_map PTimestamp (pg_timestamp_in L text)
      else if String.eqb col "songplay_id" || String.eqb col "user_id"
           then option_map PInt (pg_int_in L text)
      else option_map PStr (pg_text_in L text) in
    match value with
    | Some v => Ok v
    | None => Raise DataError
    end.

(** The fields of a line, read from left to right; a line with too few or
    too many fields is refused. *)
Fixpoint read_fields (cols cells : list string) : result (list (string * pyval)) :=
  match cols, cells with
  | [], [] => Ok []
  | col :: cols', text :: cells' =>
      match copy_field col text with
      | Raise e => Raise e
      | Ok v =>
          match read_fields cols' cells' with
          | Raise e => Raise e
          | Ok fields => Ok ((col, v) :: fields)
          end
      end
  | _, _ => Raise DataError
  end.

(** The value read for the column [col], if the column was copied. *)
Definition field_of (col : string) (fields : list (string * pyval)) : option pyval :=
  match find (fun kv => String.eqb (fst kv) col) fields with
  | Some kv => Some (snd kv)
  | None => None
  end.

(** The cell of the new row in column [col]; NULL when the column is not
    among those copied. *)
Definition cell_of (col : string) (fields : list (string * pyval)) : pyval :=
  match field_of col fields with
  | Some v => v
  | None => PNone
  end.

(** One line becomes one row.  [songplay_id] has its default when it is
    not copied and is not kept here; it cannot be NULL, and neither can
    [start_time], [user_id] and [level]. *)
Definition copy_line (cols : list string) (cells : list string) : result songplay_row :=
  match read_fields cols cells with
  | Raise e => Raise e
  | Ok fields =>
      let r := {| sp_start_time := cell_of "start_time" fields;
                  sp_user_id := cell_of "user_id" fields;
                  sp_level := cell_of "level" fields;
                  sp_song_id := cell_of "song_id" fields;
                  sp_artist_id := cell_of "artist_id" fields;
                  sp_session_id := cell_of "session_id" fields;
                  sp_location := cell_of "location" fields;
                  sp_user_agent := cell_of "user_agent" fields |} in
      if match field_of "songplay_id" fields with Some v => is_null v | None => false end
         || is_null (sp_start_time r) || is_null (sp_user_id r) || is_null (sp_level r)
      then Raise IntegrityError
      else Ok r
  end.

Fixpoint copy_lines (cols : list string) (buffer : list (list string))
  : result (list songplay_row) :=
  match buffer with
  | [] => Ok []
  | cells :: rest =>
      match copy_line cols cells with
      | Raise e => Raise e
      | Ok r =>
          match copy_lines cols rest with
          | Raise e => Raise e
          | Ok rs => Ok (r :: rs)
          end
      end
  end.

(** [cursor.copy_from(buffer, table, sep, null, columns)]: one COPY, which
    stores every line or none.  The program copies into [songplays] only;
    that is the relation known here, any other name is answered as an
    unknown relation. *)
Definition copy_from (buffer : list (list string)) (table : string)
    (columns : option (list string)) : DB unit :=
  fun c =>
    if negb (String.eqb table "songplays") then (Raise UndefinedTable, c)
    else
      let cols := match columns with Some l => l | None => songplays_columns end in
      match check_columns [] cols with
      | Some e => (Raise e, c)
      | None =>
          match copy_lines cols buffer with
          | Raise e => (Raise e, c)
          | Ok rows =>
              (Ok tt,
               {| committed := committed c;
                  working := set_songplays (working c) (songplays (working c) ++ rows);
                  result_set := result_set c |})
          end
      end.

(** [copy_from_stringio(conn, df, table, which_columns)].  The value is
    [PInt 1] from the handler and [PNone] when the function runs to its
    end. *)
Definition copy_from_stringio (df : list (list pyval)) (table : string)
    (which_columns : option (list string)) : DB pyval :=
  let buffer := to_csv df in
  try_except
    (copy_from buffer table which_columns ;;
     commit ;;
     ret PNone)
    (fun error =>
       rollback ;;
       ret (PInt 1)).

(* ----------------------------------------------------------------- *)
(** *** Song files (etl.py, lines 58-68) *)

(** [pd.read_json(filepath, typ='series')] *)
Definition read_json_series (fs : filesystem) (filepath : string)
  : DB (list (string * pyval)) :=
  match fs filepath with
  | Some (File (JsonObject o)) => ret o
  | Some _ => raise ValueError
  | None => raise FileNotFoundError
  end.

(** [df[k]] on a Series *)
Definition getitem (df : list (string * pyval)) (k : string) : DB pyval :=
  match find (fun kv => String.eqb (fst kv) k) df with
  | Some kv => ret (snd kv)
  | None => raise (KeyError k)
  end.

Definition process_song_file (fs : filesystem) (filepath : string) : DB unit :=
  df <- read_json_series fs filepath ;;
  (* insert song record *)
  song_id <- getitem df "song_id" ;;
  title <- getitem df "title" ;;
  artist_id <- getitem df "artist_id" ;;
  year <- getitem df "year" ;;
  duration <- getitem df "duration" ;;
  let song_data := [song_id; title; artist_id; year; duration] in
  execute song_table_insert song_data ;;
  (* insert artist record *)
  artist_id <- getitem df "artist_id" ;;
  artist_name <- getitem df "artist_name" ;;
  artist_location <- getitem df "artist_location" ;;
  artist_latitude <- getitem df "artist_latitude" ;;
  artist_longitude <- getitem df "artist_longitude" ;;
  let artist_data :=
    [artist_id; artist_name; artist_location; artist_latitude; artist_longitude] in
  execute artist_table_insert artist_data.

(* ----------------------------------------------------------------- *)
(** *** Log files (etl.py, lines 71-116) *)

(** [pd.read_json(filepath, lines=True)]: the rows of the frame.  What
    pandas decides column by column is in the cells: a column of integers
    with a line that has no value is read as floats, with NaN on that
    line; a column with a string that is no number stays one of strings,
    with [None] where a line has no value; a column without any value is
    one of floats, all NaN. *)
Definition read_json_lines (fs : filesystem) (filepath : string) : DB (list event) :=
  match fs filepath with
  | Some (File (JsonLines evs)) => ret evs
  | Some _ => raise ValueError
  | None => raise FileNotFoundError
  end.

(** [df.page].  A frame has the columns of the keys of its lines: the
    frame of a file without lines has none, and the attribute is not
    there.  A frame with rows has the columns the program reads. *)
Definition df_page (df : list event) : DB (list pyval) :=
  match df with
  | [] => raise AttributeError
  | _ :: _ => ret (map page df)
  end.

(** [page.eq('NextSong')], row by row. *)
Definition next_song (e : event) : bool :=
  match page e with
  | PStr s => String.eqb s "NextSong"
  | _ => false
  end.

(** [pd.to_datetime(df.ts, unit='ms')] *)
Definition to_datetime (col : list Z) : DB (list Z) :=
  if forallb (datetime_ok L) col then ret col else raise OutOfBoundsDatetime.

(** The frame of time records: one row for each row of [df], made of its
    converted [ts] and what the [.dt] accessors give for it. *)
Definition time_df (df : list event) : list (list pyval) :=
  map (fun e =>
         let t := ts e in
         [PTimestamp t; PInt (dt_hour L t); PInt (dt_day L t); PInt (dt_week L t);
          PInt (dt_month L t); PInt (dt_year L t); PInt (dt_weekday L t)])
      df.

(** [sort_values(by = ["ts"], ascending = False)] on rows that carry their
    [ts] in front.  Rows with the same [ts] keep their order here; pandas
    promises nothing for them. *)
Fixpoint insert_desc {A : Type} (x : Z * A) (l : list (Z * A)) : list (Z * A) :=
  match l with
  | [] => [x]
  | y :: r => if Z.leb (fst y) (fst x) then x :: l else y :: insert_desc x r
  end.

Definition sort_values_desc {A : Type} (l : list (Z * A)) : list (Z * A) :=
  fold_right insert_desc [] l.

(** [df[["ts", "userId", "firstName", "lastName", "gender",
    "level"]].sort_values(by = ["ts"], ascending = False)]; the second
    component of a row is [row[1:]]. *)
Definition user_df (df : list event) : list (Z * list pyval) :=
  sort_values_desc
    (map (fun e => (ts e, [userId e; firstName e; lastName e; gender e; level e])) df).

(** [x.strip(q)] for the double quote [q], an [AttributeError] on what is
    no string. *)
Definition strip (v : pyval) : DB pyval :=
  match v with
  | PStr s => ret (PStr (strip_quote s))
  | _ => raise AttributeError
  end.

Definition songplay_cols : list string :=
  ["start_time"; "user_id"; "level"; "song_id"; "artist_id"; "session_id";
   "location"; "user_agent"].

(** One turn of the loop over [df.iterrows()] (lines 102-114).  The [ts]
    of the row is one that line 79 has converted already. *)
Definition songplay_step (songplay_df : list (list pyval)) (row : event)
  : DB (list (list pyval)) :=
  (* get songid and artistid from song and artist tables *)
  execute song_select [song row; artist row; PStr (float_str L (length_ row))] ;;
  results <- fetchone ;;
  ids <- match results with
         | Some [songid; artistid] => ret (songid, artistid)
         | Some (_ :: _) => raise ValueError
         | Some [] | None => ret (PNone, PNone)
         end ;;
  user_agent <- strip (userAgent row) ;;
  let songplay_row :=
    [PTimestamp (ts row); userId row; level row; fst ids; snd ids;
     sessionId row; location row; user_agent] in
  ret (songplay_df ++ [songplay_row]).

Definition process_log_file (fs : filesystem) (filepath : string) : DB unit :=
  (* open log file *)
  df <- read_json_lines fs filepath ;;
  (* filter by NextSong action *)
  df_page df ;;
  let df := filter next_song df in
  (* convert timestamp column to datetime *)
  to_datetime (map ts df) ;;
  (* insert time data records *)
  for_each (time_df df) (fun row => execute time_table_insert row) ;;
  (* insert user records *)
  for_each (user_df df) (fun row => execute user_table_insert (snd row)) ;;
  (* insert songplay records *)
  songplay_df <- for_fold df [] songplay_step ;;
  copy_from_stringio songplay_df "songplays" (Some songplay_cols) ;;
  ret tt.

(* ----------------------------------------------------------------- *)
(** *** The run (etl.py, lines 119-141) *)

Definition process_data (fs : filesystem) (filepath : string)
    (func : string -> DB unit) : DB unit :=
  (* get all files matching extension from directory *)
  all_files <- lift (get_files fs filepath "*.json" (ExcludeStr ".ipynb_checkpoints")) ;;
  (* iterate over files and process *)
  for_each all_files (fun datafile => func datafile ;; commit).

Definition main (fs : filesystem) : DB unit :=
  process_data fs "data/song_data" (process_song_file fs) ;;
  process_data fs "data/log_data" (process_log_file fs).

(* ----------------------------------------------------------------- *)
(** *** Notions used to state the properties *)

(** A computation that leaves the committed tables as they are. *)
Definition keeps_committed {A : Type} (m : DB A) : Prop :=
  forall c r c', m c = (r, c') -> committed c' = committed c.

(** The steps of [process_log_file] between the filter and the bulk load
    (lines 79-114), on the rows [df] that were kept. *)
Definition before_copy (df : list event) : DB (list (list pyval)) :=
  to_datetime (map ts df) ;;
  for_each (time_df df) (fun row => execute time_table_insert row) ;;
  for_each (user_df df) (fun row => execute user_table_insert (snd row)) ;;
  for_fold df [] songplay_step.

(** The keys [process_song_file] reads from a song file. *)
Definition required_fields : list string :=
  ["song_id"; "title"; "artist_id"; "year"; "duration"; "artist_name";
   "artist_location"; "artist_latitude"; "artist_longitude"].

Definition has_field (df : list (string * pyval)) (k : string) : bool :=
  existsb (fun kv => String.eqb (fst kv) k) df.

(** The two statements of the catalog load. *)
Definition catalog_statement (q : statement) : bool :=
  match q with
  | song_table_insert | artist_table_insert => true
  | _ => false
  end.

(** A catalog statement with its parameters whose key is in its table
    already. *)
Definition settled (op : statement * list pyval) (db : tables) : bool :=
  match op with
  | (song_table_insert, [a; _; _; _; _; _]) => has_key s_song_id a (songs db)
  | (artist_table_insert, [a; _; _; _; _]) => has_key a_artist_id a (artists db)
  | _ => false
  end.

(** A sequence of statements, executed one after the other. *)
Definition execute_all (ops : list (statement * list pyval)) : DB unit :=
  for_each ops (fun op => execute (fst op) (snd op)).

(** The lookup key in the words of the specification: a song and an
    artist row that belong together match an event when the title, the
    artist name, and the duration as a string are those of the event. *)
Definition triple_match (e : event) (s : song_row) (a : artist_row) : bool :=
  sql_eq (s_artist_id s) (a_artist_id a)
  && sql_eq (s_title s) (song e)
  && sql_eq (a_name a) (artist e)
  && sql_eq (s_duration_str s) (PStr (float_str L (length_ e))).

(** The fact row of an event with the ids [songid] and [artistid] and the
    user agent [ua]. *)
Definition fact_row (e : event) (songid artistid ua : pyval) : list pyval :=
  [PTimestamp (ts e); userId e; level e; songid; artistid;
   sessionId e; location e; ua].

(** What the specification asks of the fact row of [e], given the tables
    [db] the lookup sees. *)
Definition enriched (db : tables) (e : event) (row : list pyval) : Prop :=
  exists songid artistid ua,
    row = fact_row e songid artistid ua
    /\ ((exists s a,
           In s (songs db) /\ In a (artists db)
           /\ triple_match e s a = true
           /\ songid = s_song_id s
           /\ artistid = s_artist_id s
           /\ artistid = a_artist_id a)
        \/ ((forall s a, In s (songs db) -> In a (artists db) ->
                         triple_match e s a = false)
            /\ songid = PNone /\ artistid = PNone)).

(** Between the sessions [c] and [c'] nothing has changed but the level of
    the user [uid], which is [lvl] now: the committed tables and the other
    four tables are the same, [users] has its rows in place, each with the
    [user_id], [first_name], [last_name] and [gender] it had. *)
Definition level_overwritten (uid lvl : pyval) (c c' : session) : Prop :=
  committed c' = committed c
  /\ songs (working c') = songs (working c)
  /\ artists (working c') = artists (working c)
  /\ time (working c') = time (working c)
  /\ songplays (working c') = songplays (working c)
  /\ List.length (users (working c')) = List.length (users (working c))
  /\ forall i u,
       nth_error (users (working c)) i = Some u ->
       exists u',
         nth_error (users (working c')) i = Some u'
         /\ u_user_id u' = u_user_id u
         /\ u_first_name u' = u_first_name u
         /\ u_last_name u' = u_last_name u
         /\ u_gender u' = u_gender u
         /\ u_level u' = if sql_eq (u_user_id u) uid then lvl else u_level u.

(** The keys read for the song record, in the order they are read. *)
Definition song_fields : list string :=
  ["song_id"; "title"; "artist_id"; "year"; "duration"].

(** What PRIMARY KEY asks of a table: no row has a NULL key and no two
    rows have the same key. *)
Fixpoint distinct_keys {R : Type} (key : R -> pyval) (rows : list R) : bool :=
  match rows with
  | [] => true
  | r :: rest =>
      negb (is_null (key r)) && negb (has_key key (key r) rest)
      && distinct_keys key rest
  end.

(** The four keyed tables ([songplays] has its key from the server). *)
Definition primary_keys (db : tables) : bool :=
  distinct_keys s_song_id (songs db)
  && distinct_keys a_artist_id (artists db)
  && distinct_keys t_start_time (time db)
  && distinct_keys u_user_id (users db).

(** A session whose tables, pending and committed, respect their keys. *)
Definition keyed (c : session) : Prop :=
  primary_keys (working c) = true /\ primary_keys (committed c) = true.

(** A computation that takes keyed sessions to keyed sessions, whether it
    returns or raises. *)
Definition keeps_keys {A : Type} (m : DB A) : Prop :=
  forall c r c', keyed c -> m c = (r, c') -> keyed c'.

(** Between [c] and [c'] only [time] has changed, and only by rows added
    at its end. *)
Definition only_time_grown (c c' : session) : Prop :=
  committed c' = committed c
  /\ songs (working c') = songs (working c)
  /\ artists (working c') = artists (working c)
  /\ users (working c') = users (working c)
  /\ songplays (working c') = songplays (working c)
  /\ exists added, time (working c') = time (working c) ++ added.

(** The user row of an event, with its [ts] in front. *)
Definition user_columns (e : event) : Z * list pyval :=
  (ts e, [userId e; firstName e; lastName e; gender e; level e]).

(** Rows in descending order of the [ts] in front. *)
Definition descending (rows : list (Z * list pyval)) : Prop :=
  StronglySorted (fun x y => (fst y <= fst x)%Z) rows.


(** Does a string begin, does it end with a double quote? *)
Definition starts_with_quote (s : string) : bool :=
  match s with
  | String c _ => Ascii.eqb c dquote
  | EmptyString => false
  end.

Fixpoint ends_with_quote (s : string) : bool :=
  match s with
  | EmptyString => false
  | String c EmptyString => Ascii.eqb c dquote
  | String _ r => ends_with_quote r
  end.

(** The cells of a stored fact row, in the order of [songplay_cols]. *)
Definition songplay_cells (r : songplay_row) : list pyval :=
  [sp_start_time r; sp_user_id r; sp_level r; sp_song_id r; sp_artist_id r;
   sp_session_id r; sp_location r; sp_user_agent r].

(** A frame whose rows are fact rows of the events [df], in order. *)
Definition fact_rows_of (df : list event) (rows : list (list pyval)) : Prop :=
  Forall2 (fun e row => exists songid artistid ua, row = fact_row e songid artistid ua)
          df rows.

(** Between [c] and [c'] no table but [users] has changed, and nothing was
    committed. *)
Definition same_but_users (c c' : session) : Prop :=
  committed c' = committed c
  /\ songs (working c') = songs (working c)
  /\ artists (working c') = artists (working c)
  /\ time (working c') = time (working c)
  /\ songplays (working c') = songplays (working c).

End Model.

(** The library is read off the values: it is implicit in constructors and
    in projections. *)
Arguments PNone {L}.
Arguments PStr {L} s.
Arguments PInt {L} z.
Arguments PFloat {L} x.
Arguments PTimestamp {L} ms.
Arguments JsonObject {L} fields.
Arguments JsonLines {L} events.
Arguments Malformed {L}.
Arguments File {L} c.
Arguments Dir {L} entries.
Arguments Build_event {L}.
Arguments ts {L} e.
Arguments page {L} e.
Arguments userId {L} e.
Arguments firstName {L} e.
Arguments lastName {L} e.
Arguments gender {L} e.
Arguments level {L} e.
Arguments song {L} e.
Arguments artist {L} e.
Arguments length_ {L} e.
Arguments sessionId {L} e.
Arguments location {L} e.
Arguments userAgent {L} e.
Arguments s_song_id {L} s.
Arguments s_title {L} s.
Arguments s_artist_id {L} s.
Arguments s_year {L} s.
Arguments s_duration_str {L} s.
Arguments s_duration_float {L} s.
Arguments a_artist_id {L} a.
Arguments a_name {L} a.
Arguments a_location {L} a.
Arguments a_latitude {L} a.
Arguments a_longitude {L} a.
Arguments t_start_time {L} t.
Arguments t_hour {L} t.
Arguments t_day {L} t.
Arguments t_week {L} t.
Arguments t_month {L} t.
Arguments t_year {L} t.
Arguments t_weekday {L} t.
Arguments u_user_id {L} u.
Arguments u_first_name {L} u.
Arguments u_last_name {L} u.
Arguments u_gender {L} u.
Arguments u_level {L} u.
Arguments sp_start_time {L} s.
Arguments sp_user_id {L} s.
Arguments sp_level {L} s.
Arguments sp_song_id {L} s.
Arguments sp_artist_id {L} s.
Arguments sp_session_id {L} s.
Arguments sp_location {L} s.
Arguments sp_user_agent {L} s.
Arguments Build_song_row {L}.
Arguments Build_artist_row {L}.
Arguments Build_time_row {L}.
Arguments Build_user_row {L}.
Arguments Build_songplay_row {L}.
Arguments Build_tables {L}.
Arguments songs {L} t.
Arguments artists {L} t.
Arguments time {L} t.
Arguments users {L} t.
Arguments songplays {L} t.
Arguments Build_session {L}.
Arguments committed {L} s.
Arguments working {L} s.
Arguments result_set {L} s.
Arguments pyval_eqb {L} v w.
Arguments is_null {L} v.
Arguments sql_eq {L} v w.
Arguments is_dir {L} n.
Arguments dirnames {L} es.
Arguments filenames {L} es.
Arguments has_key {L R} key k rows.
Arguments set_songs {L} db x.
Arguments set_artists {L} db x.
Arguments set_time {L} db x.
Arguments set_users {L} db x.
Arguments set_songplays {L} db x.
Arguments set_level {L} u v.
Arguments insert_user {L} r db.
Arguments insert_song {L} r db.
Arguments insert_artist {L} r db.
Arguments insert_time {L} r db.
Arguments select_song {L} title name duration db.
Arguments to_csv {L} df.
Arguments next_song {L} e.
Arguments keeps_committed L {A} m.
Arguments has_field {L} df k.
Arguments songplay_cells {L} r.
Arguments distinct_keys {L R} key rows.
Arguments primary_keys {L} db.
Arguments keeps_keys L {A} m.
Arguments settled {L} op db.

(* ================================================================= *)
(** ** A library to run the program on

    Floats are held as the decimal text the JSON file has for them, paths
    are made absolute below [/home/workspace], a pattern has its wildcards
    in its last component and the masks are those the program uses, every
    timestamp is in range, and the calendar is the proleptic Gregorian one
    in UTC.  A cell is written to the buffer as it reads, an integer and a
    timestamp in decimal, and read back the same way. *)

Module Toy.

Definition abspath (p : string) : string :=
  if prefix "/" p then p else path_join "/home/workspace" p.

Definition glob_match (mask name : string) : bool :=
  if String.eqb mask "*.json" then endswith name ".json" && negb (prefix "." name)
  else if String.eqb mask "*.*" then
    negb (prefix "." name)
    && existsb (Ascii.eqb ".") (list_ascii_of_string name)
  else String.eqb mask name.

(** [os.path.split]: what is before the last slash, if there is one, and
    what is after it. *)
Fixpoint split_path (p : string) : option string * string :=
  match p with
  | EmptyString => (None, EmptyString)
  | String c r =>
      match split_path r with
      | (Some d, b) => (Some (String c d), b)
      | (None, b) => if Ascii.eqb c "/" then (Some EmptyString, b) else (None, String c b)
      end
  end.

(** The entries of the directory named before the last slash that match
    the last component, each joined to that directory. *)
Definition glob_glob (ls : string -> option (list (string * bool))) (pathname : string)
  : list string :=
  match split_path pathname with
  | (Some dirname, mask) =>
      match ls dirname with
      | Some es => map (path_join dirname) (filter (glob_match mask) (map fst es))
      | None => []
      end
  | (None, mask) =>
      match ls "." with
      | Some es => filter (glob_match mask) (map fst es)
      | None => []
      end
  end.

Definition int_of_str (s : string) : option Z :=
  match NilZero.int_of_string s with
  | Some d => Some (Z.of_int d)
  | None => None
  end.

Definition days (ms : Z) : Z := (ms / 86400000)%Z.

Definition dt_hour (ms : Z) : Z := ((ms / 3600000) mod 24)%Z.

(** Monday is 0; the first day of 1970 was a Thursday. *)
Definition dt_weekday (ms : Z) : Z := ((days ms + 3) mod 7)%Z.

(** Year, month and day of a day number, counted in 400-year eras that
    begin on the first of March. *)
Definition civil (ms : Z) : Z * Z * Z :=
  (let z := days ms + 719468 in
   let era := z / 146097 in
   let doe := z - era * 146097 in
   let yoe := (doe - doe / 1460 + doe / 36524 - doe / 146096) / 365 in
   let doy := doe - (365 * yoe + yoe / 4 - yoe / 100) in
   let mp := (5 * doy + 2) / 153 in
   let d := doy - (153 * mp + 2) / 5 + 1 in
   let m := if mp <? 10 then mp + 3 else mp - 9 in
   let y := yoe + era * 400 + (if m <=? 2 then 1 else 0) in
   (y, m, d))%Z.

Definition dt_year (ms : Z) : Z := fst (fst (civil ms)).
Definition dt_month (ms : Z) : Z := snd (fst (civil ms)).
Definition dt_day (ms : Z) : Z := snd (civil ms).

Definition leap (y : Z) : bool :=
  ((y mod 4 =? 0) && negb (y mod 100 =? 0) || (y mod 400 =? 0))%Z.

Definition day_of_year (y m d : Z) : Z :=
  (let before :=
     nth (Z.to_nat (m - 1)) [0; 31; 59; 90; 120; 151; 181; 212; 243; 273; 304; 334] 0 in
   before + d + (if leap y && (2 <? m) then 1 else 0))%Z.

(** Weekday of the 31st of December of year [y], Monday 0. *)
Definition dec31 (y : Z) : Z :=
  ((y + y / 4 - y / 100 + y / 400 + 6) mod 7)%Z.

Definition long_year (y : Z) : bool :=
  ((dec31 y =? 3) || (dec31 (y - 1) =? 2))%Z.

(** ISO 8601 week number. *)
Definition dt_week (ms : Z) : Z :=
  (let '(y, m, d) := civil ms in
   let w := (day_of_year y m d - (dt_weekday ms + 1) + 10) / 7 in
   if w <? 1 then (if long_year (y - 1) then 53 else 52)
   else if (w =? 53) && negb (long_year y) then 1
   else w)%Z.

Definition library : Library :=
  Build_Library string string_dec (fun x => x) abspath glob_glob (fun _ => true)
    dt_hour dt_day dt_week dt_month dt_year dt_weekday
    (String.eqb "nan") int_str (fun s => s)
    int_of_str int_of_str (fun s => Some s).

End Toy.

(* ================================================================= *)
(** ** Example stores *)

Module Example.

Definition V : Type := pyval Toy.library.

(** The paths of a tree hung at [top], directories and files. *)
Fixpoint paths (top : string) (n : node Toy.library) : list (string * node Toy.library) :=
  (top, n)
    :: match n with
       | File _ => []
       | Dir es => flat_map (fun e => paths (path_join top (fst e)) (snd e)) es
       end.

(** The file system whose working directory [/home/workspace] holds the
    entries [es]: a path is looked up as it is, or relative to the working
    directory, with or without a slash at its end. *)
Definition filesystem_of (es : list (string * node Toy.library)) : filesystem Toy.library :=
  fun p =>
    let p :=
      if endswith p "/" then substring 0 (String.length p - 1) p else p in
    let rel :=
      if prefix "/home/workspace/" p
      then substring 16 (String.length p - 16) p else p in
    match find (fun x => String.eqb (fst x) rel)
               (flat_map (fun e => paths (fst e) (snd e)) es) with
    | Some x => Some (snd x)
    | None => None
    end.

Definition no_tables : tables Toy.library :=
  {| songs := []; artists := []; time := []; users := []; songplays := [] |}.

Definition fresh : session Toy.library :=
  {| committed := no_tables; working := no_tables; result_set := None |}.

(** A song file with every key the program reads. *)
Definition song_doc : list (string * V) :=
  [("song_id", PStr "SOUPIRU12A6D4FA1E1");
   ("title", PStr "Der Kleine Dompfaff");
   ("artist_id", PStr "ARJIE2Y1187B994AB7");
   ("year", PInt 0);
   ("duration", @PFloat Toy.library "152.92036");
   ("artist_name", PStr "Line Renaud");
   ("artist_location", PStr "");
   ("artist_latitude", PNone);
   ("artist_longitude", PNone);
   ("num_songs", PInt 1)].

(** A log line: a play of a song by user [uid] at [t]. *)
Definition play (t : Z) (uid : Z) (lvl : string) : event Toy.library :=
  {| ts := t; page := PStr "NextSong"; userId := PInt uid;
     firstName := PStr "Lily"; lastName := PStr "Koch";
     gender := PStr "F"; level := PStr lvl;
     song := PStr "Der Kleine Dompfaff";
     artist := PStr "Line Renaud";
     length_ := "152.92036" : pyfloat Toy.library;
     sessionId := PInt 818;
     location := PStr "Chicago-Naperville-Elgin, IL-IN-WI";
     userAgent := PStr "Mozilla/5.0" |}.

(** A log line that is no play. *)
Definition visit (t : Z) (uid : Z) (lvl : string) : event Toy.library :=
  {| ts := t; page := PStr "Home"; userId := PInt uid;
     firstName := PStr "Lily"; lastName := PStr "Koch";
     gender := PStr "F"; level := PStr lvl;
     song := PNone; artist := PNone;
     length_ := "nan" : pyfloat Toy.library;
     sessionId := PInt 818;
     location := PStr "Chicago-Naperville-Elgin, IL-IN-WI";
     userAgent := PStr "Mozilla/5.0" |}.

(** A play whose [userAgent] is missing, in a file where other lines have
    one. *)
Definition broken_play (t : Z) (uid : Z) (lvl : string) : event Toy.library :=
  {| ts := t; page := PStr "NextSong"; userId := PInt uid;
     firstName := PStr "Lily"; lastName := PStr "Koch";
     gender := PStr "F"; level := PStr lvl;
     song := PStr "Der Kleine Dompfaff";
     artist := PStr "Line Renaud";
     length_ := "152.92036" : pyfloat Toy.library;
     sessionId := PInt 818;
     location := PStr "Chicago-Naperville-Elgin, IL-IN-WI";
     userAgent := PNone |}.

(** The example of the specification: user 7 is [free] at 1000 and [paid]
    at 2000. *)
Definition two_levels : list (event Toy.library) :=
  [play 1000 7 "free"; play 2000 7 "paid"].

Definition log_file (evs : list (event Toy.library)) : node Toy.library :=
  File (JsonLines evs).

Definition fs_two_levels : filesystem Toy.library :=
  filesystem_of
    [("data", Dir [("log_data", Dir [("2018-11-01-events.json", log_file two_levels)])])].

Definition fs_two_levels_swapped : filesystem Toy.library :=
  filesystem_of
    [("data", Dir [("log_data", Dir [("2018-11-01-events.json", log_file (rev two_levels))])])].

(** A song directory with a checkpoint directory in it, which in turn has
    a directory of its own. *)
Definition fs_songs : filesystem Toy.library :=
  filesystem_of
    [("data",
      Dir [("song_data",
            Dir [("A", Dir [("TRAAAAW128F429D538.json", File (JsonObject song_doc));
                            ("notes.txt", File Malformed)]);
                 (".ipynb_checkpoints",
                  Dir [("TRAAAAW128F429D538-checkpoint.json", File (JsonObject song_doc));
                       ("B", Dir [("TRAAABD128F429CF47.json", File (JsonObject song_doc))])])])])].

(** Two log files: the first has a play without [userAgent]. *)
Definition fs_two_logs : filesystem Toy.library :=
  filesystem_of
    [("data",
      Dir [("log_data",
            Dir [("2018-11-01-events.json",
                  log_file [play 500 7 "free"; broken_play 1000 7 "free"]);
                 ("2018-11-02-events.json", log_file [play 2000 8 "paid"])])])].

Definition fs_second_log_only : filesystem Toy.library :=
  filesystem_of
    [("data",
      Dir [("log_data",
            Dir [("2018-11-02-events.json", log_file [play 2000 8 "paid"])])])].

(** A frame of one fact row. *)
Definition one_songplay : list (list V) :=
  [[PTimestamp 1000; PInt 7; PStr "free"; PNone; PNone; PInt 818;
    PStr "Chicago-Naperville-Elgin, IL-IN-WI"; PStr "Mozilla/5.0"]].

(** A play whose [level] is missing, in a file where no line has one (the
    column is one of floats, NaN): the user row takes it, the fact row
    does not. *)
Definition play_without_level (t : Z) (uid : Z) : event Toy.library :=
  {| ts := t; page := PStr "NextSong"; userId := PInt uid;
     firstName := PStr "Lily"; lastName := PStr "Koch";
     gender := PStr "F"; level := @PFloat Toy.library "nan";
     song := PStr "Der Kleine Dompfaff";
     artist := PStr "Line Renaud";
     length_ := "152.92036" : pyfloat Toy.library;
     sessionId := PInt 818;
     location := PStr "Chicago-Naperville-Elgin, IL-IN-WI";
     userAgent := PStr "Mozilla/5.0" |}.

(** The frame of fact rows made from it. *)
Definition songplay_without_level : list (list V) :=
  [[PTimestamp 1000; PInt 7; @PFloat Toy.library "nan"; PNone; PNone; PInt 818;
    PStr "Chicago-Naperville-Elgin, IL-IN-WI"; PStr "Mozilla/5.0"]].

(** Two log files: the fact rows of the first cannot be copied. *)
Definition fs_bad_copy : filesystem Toy.library :=
  filesystem_of
    [("data",
      Dir [("log_data",
            Dir [("2018-11-01-events.json", log_file [play_without_level 1000 7]);
                 ("2018-11-02-events.json", log_file [play 2000 8 "paid"])])])].

(** A store that holds the song and the artist of [song_doc], and the
    user 7 at level [free]. *)
Definition the_song : song_row Toy.library :=
  {| s_song_id := PStr "SOUPIRU12A6D4FA1E1"; s_title := PStr "Der Kleine Dompfaff";
     s_artist_id := PStr "ARJIE2Y1187B994AB7"; s_year := PInt 0;
     s_duration_str := PStr "152.92036";
     s_duration_float := @PFloat Toy.library "152.92036" |}.

Definition the_artist : artist_row Toy.library :=
  {| a_artist_id := PStr "ARJIE2Y1187B994AB7"; a_name := PStr "Line Renaud";
     a_location := PStr ""; a_latitude := PNone; a_longitude := PNone |}.

Definition the_user : user_row Toy.library :=
  {| u_user_id := PInt 7; u_first_name := PStr "Lily"; u_last_name := PStr "Koch";
     u_gender := PStr "F"; u_level := PStr "free" |}.

Definition loaded_tables : tables Toy.library :=
  {| songs := [the_song]; artists := [the_artist]; time := [];
     users := [the_user]; songplays := [] |}.

Definition loaded : session Toy.library :=
  {| committed := loaded_tables; working := loaded_tables; result_set := None |}.

(** The two catalog statements with six and five parameters. *)
Definition catalog_ops : list (statement * list V) :=
  [(song_table_insert,
    [PStr "SOUPIRU12A6D4FA1E1"; PStr "Der Kleine Dompfaff"; PStr "ARJIE2Y1187B994AB7";
     PInt 0; PStr "152.92036"; @PFloat Toy.library "152.92036"]);
   (artist_table_insert,
    [PStr "ARJIE2Y1187B994AB7"; PStr "Line Renaud"; PStr ""; PNone; PNone])].

(** A log file of two plays with a visit between them, and the file
    without the visit. *)
Definition fs_with_visit : filesystem Toy.library :=
  filesystem_of
    [("data",
      Dir [("log_data",
            Dir [("2018-11-01-events.json",
                  log_file [play 1000 7 "free"; visit 1500 7 "free"; play 2000 8 "paid"])])])].

Definition fs_without_visit : filesystem Toy.library :=
  filesystem_of
    [("data",
      Dir [("log_data",
            Dir [("2018-11-01-events.json",
                  log_file [play 1000 7 "free"; play 2000 8 "paid"])])])].

(** A song file without [title], and a song directory that has it before
    a complete one. *)
Definition song_doc_without_title : list (string * V) :=
  [("song_id", PStr "SOUPIRU12A6D4FA1E1");
   ("artist_id", PStr "ARJIE2Y1187B994AB7");
   ("year", PInt 0);
   ("duration", @PFloat Toy.library "152.92036");
   ("artist_name", PStr "Line Renaud");
   ("artist_location", PStr "");
   ("artist_latitude", PNone);
   ("artist_longitude", PNone)].

Definition fs_song_without_title : filesystem Toy.library :=
  filesystem_of
    [("data",
      Dir [("song_data",
            Dir [("TRAAAAW128F429D538.json", File (JsonObject song_doc_without_title));
                 ("TRAAABD128F429CF47.json", File (JsonObject song_doc))])])].

(** A log file of visits only. *)
Definition fs_visits_only : filesystem Toy.library :=
  filesystem_of
    [("data",
      Dir [("log_data",
            Dir [("2018-11-01-events.json",
                  log_file [visit 1000 7 "free"; visit 1500 8 "paid"])])])].

(** The frame of fact rows made from [two_levels] when no song is
    loaded. *)
Definition two_levels_facts : list (list V) :=
  [[PTimestamp 1000; PInt 7; PStr "free"; PNone; PNone; PInt 818;
    PStr "Chicago-Naperville-Elgin, IL-IN-WI"; PStr "Mozilla/5.0"];
   [PTimestamp 2000; PInt 7; PStr "paid"; PNone; PNone; PInt 818;
    PStr "Chicago-Naperville-Elgin, IL-IN-WI"; PStr "Mozilla/5.0"]].

(** Lines whose [userId] is a string, as the log files of the data set
    have it: the empty string on a line of a guest, and no value on one
    play.  The column is one of strings, with [None] where the value is
    missing. *)
Definition play_by (t : Z) (uid : V) : event Toy.library :=
  {| ts := t; page := PStr "NextSong"; userId := uid;
     firstName := PStr "Lily"; lastName := PStr "Koch";
     gender := PStr "F"; level := PStr "free";
     song := PStr "Der Kleine Dompfaff";
     artist := PStr "Line Renaud";
     length_ := "152.92036" : pyfloat Toy.library;
     sessionId := PInt 818;
     location := PStr "Chicago-Naperville-Elgin, IL-IN-WI";
     userAgent := PStr "Mozilla/5.0" |}.



(** A log file without lines. *)
Definition fs_no_lines : filesystem Toy.library :=
  filesystem_of
    [("data", Dir [("log_data", Dir [("2018-11-01-events.json", log_file [])])])].

(** A file of a play of user 7 and a visit without [userId]: the column
    is one of floats, 7.0 on the play and NaN on the visit. *)
Definition fs_float_user : filesystem Toy.library :=
  filesystem_of
    [("data",
      Dir [("log_data",
            Dir [("2018-11-01-events.json",
                  log_file [play_by 1000 (@PFloat Toy.library "7.0");
                            {| ts := 1200; page := PStr "Home";
                               userId := @PFloat Toy.library "nan";
                               firstName := PNone; lastName := PNone;
                               gender := PNone; level := PStr "free";
                               song := PNone; artist := PNone;
                               length_ := "nan" : pyfloat Toy.library;
                               sessionId := PInt 819;
                               location := PNone;
                               userAgent := PNone |}])])])].

End Example.

(* ================================================================= *)
(** ** Properties *)

Section Properties.

Variable L : Library.

(* ----------------------------------------------------------------- *)
(** *** The monad *)

Lemma bind_ok {S A B : Type} (m : M S A) (k : A -> M S B) (s s' : S) (a : A) :
  m s = (Ok a, s') -> bind m k s = k a s'.
Proof. intros H. unfold bind. now rewrite H. Qed.

Lemma bind_raise {S A B : Type} (m : M S A) (k : A -> M S B) (s s' : S) (e : exn) :
  m s = (Raise e, s') -> bind m k s = (Raise e, s').
Proof. intros H. unfold bind. now rewrite H. Qed.

Lemma for_each_app {S A : Type} (l1 l2 : list A) (body : A -> M S unit) (s s1 : S) :
  for_each l1 body s = (Ok tt, s1) ->
  for_each (l1 ++ l2) body s = for_each l2 body s1.
Proof.
  revert s. induction l1 as [|x l1 IH]; intros s H; simpl in *.
  - unfold ret in H. now inversion H.
  - unfold bind in *. destruct (body x s) as [[[]|e] s2]; [now apply IH | discriminate].
Qed.

(* ----------------------------------------------------------------- *)
(** *** File discovery *)

Lemma append_each (files acc : list string) :
  fold_left (fun a f => a ++ [abspath L f]) files acc = acc ++ map (abspath L) files.
Proof.
  revert acc. induction files as [|f files IH]; intros acc; simpl.
  - now rewrite app_nil_r.
  - rewrite IH, <- app_assoc. reflexivity.
Qed.

Lemma get_files_loop fs filemask exclude (ws : list walk_item) (acc : list string) :
  fold_left
    (fun (all_files : list string) (w : walk_item) =>
       let root := walk_root w in
       let files :=
         if truthy exclude && endswith_arg root exclude then []
         else glob L fs root filemask in
       fold_left (fun a f => a ++ [abspath L f]) files all_files)
    ws acc
  = acc ++ flat_map (contribution L fs filemask exclude) ws.
Proof.
  revert acc. induction ws as [|w ws IH]; intros acc; simpl.
  - now rewrite app_nil_r.
  - rewrite append_each, IH, <- app_assoc. unfold contribution at 2.
    destruct (truthy exclude && endswith_arg (walk_root w) exclude); reflexivity.
Qed.

Lemma get_files_contributions fs filepath filemask exclude :
  get_files L fs filepath filemask exclude =
  Ok (flat_map (contribution L fs filemask exclude) (os_walk L fs filepath)).
Proof.
  unfold get_files. now rewrite get_files_loop.
Qed.

Lemma truthy_nonempty (s : string) : s <> "" -> truthy (ExcludeStr s) = true.
Proof.
  intros H. simpl. destruct (String.eqb_spec s ""); [contradiction | reflexivity].
Qed.

Lemma walk_descends (top name : string) (sub : node L) (es : list (string * node L)) :
  In (name, sub) es ->
  incl (walk L (path_join top name) sub) (walk L top (Dir es)).
Proof.
  intros Hin w Hw. simpl. right. apply in_flat_map.
  exists (name, sub). split; [assumption | exact Hw].
Qed.

(** C6, as the code has it.  For a non-empty exclusion suffix [s],
    [get_files] returns exactly the matches of the walked directories whose
    [root], the string the walk has for the directory, does not end with
    [s], in walk order: a directory whose [root] ends with [s] adds no
    file.  The walk itself goes into every subdirectory of every directory
    it lists, so a directory below an excluded one is visited, and adds its
    own matches unless its own [root] ends with [s].  Every path returned
    is a match of the pattern made of the [root] of a walked directory that
    does not end with [s] and the mask.  Nothing more is said of where a
    returned file lies: the suffix is compared with the [root] string, not
    with the directory the file is in. *)
Theorem get_files_exclusion (fs : filesystem L) (filepath filemask s : string) :
  s <> "" ->
  get_files L fs filepath filemask (ExcludeStr s) =
    Ok (flat_map (fun w => map (abspath L) (glob L fs (walk_root w) filemask))
          (filter (fun w => negb (endswith (walk_root w) s)) (os_walk L fs filepath)))
  /\ (forall top es name sub,
        In (name, sub) es ->
        incl (walk L (path_join top name) sub) (walk L top (Dir es)))
  /\ (forall w f all_files,
        get_files L fs filepath filemask (ExcludeStr s) = Ok all_files ->
        In w (os_walk L fs filepath) ->
        endswith (walk_root w) s = false ->
        In f (glob L fs (walk_root w) filemask) ->
        In (abspath L f) all_files)
  /\ (forall p all_files,
        get_files L fs filepath filemask (ExcludeStr s) = Ok all_files ->
        In p all_files ->
        exists w f,
          In w (os_walk L fs filepath)
          /\ endswith (walk_root w) s = false
          /\ In f (glob_glob L (listing L fs) (path_join (walk_root w) filemask))
          /\ p = abspath L f).
Proof.
  intros Hs.
  assert (E : get_files L fs filepath filemask (ExcludeStr s) =
    Ok (flat_map (fun w => map (abspath L) (glob L fs (walk_root w) filemask))
          (filter (fun w => negb (endswith (walk_root w) s)) (os_walk L fs filepath)))).
  { rewrite get_files_contributions. f_equal.
    induction (os_walk L fs filepath) as [|w ws IH]; simpl; [reflexivity|].
    unfold contribution at 1. rewrite (@truthy_nonempty s Hs). simpl.
    destruct (endswith (walk_root w) s); simpl; now rewrite IH. }
  split; [exact E|]. split; [|split].
  - intros top es name sub. apply walk_descends.
  - intros w f all_files Hall Hw Hex Hf. rewrite E in Hall. inversion Hall; subst.
    apply in_flat_map. exists w. split.
    + apply filter_In. split; [assumption | now rewrite Hex].
    + now apply in_map.
  - intros p all_files Hall Hp. rewrite E in Hall. inversion Hall; subst.
    apply in_flat_map in Hp. destruct Hp as (w & Hw & Hp).
    apply filter_In in Hw. destruct Hw as [Hw Hex].
    apply in_map_iff in Hp. destruct Hp as (f & <- & Hf).
    exists w, f. repeat split; try assumption.
    now destruct (endswith (walk_root w) s).
Qed.

(** C7, as the code has it.  [get_files] raises nothing.  Its result is
    the empty list when the root path does not exist, and it is the empty
    list when no walked directory has an entry that matches the mask. *)
Theorem get_files_empty (fs : filesystem L) (root filemask : string) (exclude : exclude_arg) :
  (exists all_files, get_files L fs root filemask exclude = Ok all_files)
  /\ (fs root = None
      \/ (forall w, In w (os_walk L fs root) -> glob L fs (walk_root w) filemask = []) ->
      get_files L fs root filemask exclude = Ok []).
Proof.
  split; [eexists; apply get_files_contributions|].
  intros H. rewrite get_files_contributions. f_equal.
  destruct H as [H|H].
  - unfold os_walk, scandir. now rewrite H.
  - induction (os_walk L fs root) as [|w ws IH]; simpl; [reflexivity|].
    rewrite IH by (intros w' Hw'; apply H; now right).
    unfold contribution. rewrite (H w) by now left.
    now destruct (truthy exclude && endswith_arg (walk_root w) exclude).
Qed.

(* ----------------------------------------------------------------- *)
(** *** Bulk load *)

Lemma copy_from_raise buffer table columns (c c' : session L) e :
  copy_from L buffer table columns c = (Raise e, c') -> c' = c.
Proof.
  unfold copy_from.
  destruct (negb (String.eqb table "songplays")); [now inversion 1|].
  destruct (check_columns _ _); [now inversion 1|].
  destruct (copy_lines L _ buffer); now inversion 1.
Qed.

Lemma copy_from_ok buffer table columns (c c' : session L) :
  copy_from L buffer table columns c = (Ok tt, c') ->
  committed c' = committed c
  /\ result_set c' = result_set c
  /\ exists rows,
       copy_lines L (match columns with Some l => l | None => songplays_columns end) buffer
         = Ok rows
       /\ working c' = set_songplays (working c) (songplays (working c) ++ rows).
Proof.
  unfold copy_from.
  destruct (negb (String.eqb table "songplays")); [discriminate|].
  destruct (check_columns _ _); [discriminate|].
  destruct (copy_lines L _ buffer) as [rows|]; [|discriminate].
  inversion 1; subst; simpl. repeat split. now exists rows.
Qed.

Lemma copy_from_stringio_failed df table which_columns (c : session L) e :
  fst (copy_from L (to_csv df) table which_columns c) = Raise e ->
  copy_from_stringio L df table which_columns c
  = (Ok (PInt 1),
     {| committed := committed c; working := committed c; result_set := result_set c |}).
Proof.
  intros H. unfold copy_from_stringio, try_except, bind.
  destruct (copy_from L (to_csv df) table which_columns c) as [[[]|e'] c1] eqn:E;
    [discriminate|].
  apply copy_from_raise in E. now subst c1.
Qed.

Lemma copy_from_stringio_stored df table which_columns (c c1 : session L) :
  copy_from L (to_csv df) table which_columns c = (Ok tt, c1) ->
  copy_from_stringio L df table which_columns c
  = (Ok PNone,
     {| committed := working c1; working := working c1; result_set := result_set c1 |}).
Proof.
  intros H. unfold copy_from_stringio, try_except, bind. now rewrite H.
Qed.

(** C3, as the code has it.  A call to [copy_from_stringio] raises
    nothing and ends in one of two ways.  Either the copy failed: the
    transaction is rolled back, so that the open transaction sees what was
    committed before, nothing of the batch is stored, and the value is 1.
    Or the copy stored every line: then the function itself commits, the
    lines and whatever the transaction had pending, and the value is
    [None]. *)
Theorem copy_from_stringio_outcome (df : list (list (pyval L))) (table : string)
    (which_columns : option (list string)) (c : session L) :
  (exists e,
      copy_from L (to_csv df) table which_columns c = (Raise e, c)
      /\ copy_from_stringio L df table which_columns c
         = (Ok (PInt 1),
            {| committed := committed c; working := committed c;
               result_set := result_set c |}))
  \/ (exists rows,
        copy_from L (to_csv df) table which_columns c
          = (Ok tt,
             {| committed := committed c;
                working := set_songplays (working c) (songplays (working c) ++ rows);
                result_set := result_set c |})
        /\ copy_from_stringio L df table which_columns c
           = (Ok PNone,
              {| committed := set_songplays (working c) (songplays (working c) ++ rows);
                 working := set_songplays (working c) (songplays (working c) ++ rows);
                 result_set := result_set c |})).
Proof.
  unfold copy_from_stringio, try_except, bind.
  destruct (copy_from L (to_csv df) table which_columns c) as [[[]|e] c1] eqn:E.
  - right. apply copy_from_ok in E as E'. destruct E' as (Hc & Hr & rows & Hrows & Hw).
    exists rows. split.
    + destruct c1 as [cm wk rs]. simpl in Hc, Hr, Hw. now subst.
    + simpl. now rewrite Hw, Hr.
  - left. apply copy_from_raise in E as E'. subst c1. exists e. split; reflexivity.
Qed.

(* ----------------------------------------------------------------- *)
(** *** What leaves the committed tables alone *)

Lemma keeps_ret {A : Type} (a : A) : keeps_committed L (ret a).
Proof. intros c r c'. unfold ret. now inversion 1. Qed.

Lemma keeps_raise {A : Type} (e : exn) : keeps_committed L (@raise _ A e).
Proof. intros c r c'. unfold raise. now inversion 1. Qed.

Lemma keeps_bind {A B : Type} (m : DB L A) (k : A -> DB L B) :
  keeps_committed L m -> (forall a, keeps_committed L (k a)) -> keeps_committed L (bind m k).
Proof.
  intros Hm Hk c r c'. unfold bind.
  destruct (m c) as [[a|e] c1] eqn:E; intros H.
  - apply Hk in H. apply Hm in E. congruence.
  - inversion H; subst. now apply Hm in E.
Qed.

Lemma keeps_execute q params : keeps_committed L (execute L q params).
Proof.
  intros c r c'. unfold execute.
  destruct (mogrify L q params); [|now inversion 1].
  destruct (run L q a (working c)) as [[db rs]|]; now inversion 1.
Qed.

Lemma keeps_fetchone : keeps_committed L (fetchone L).
Proof.
  intros c r c'. unfold fetchone.
  destruct (result_set c) as [[|x rest]|]; now inversion 1.
Qed.

Lemma keeps_for_each {A : Type} (l : list A) (body : A -> DB L unit) :
  (forall x, keeps_committed L (body x)) -> keeps_committed L (for_each l body).
Proof.
  intros H. induction l as [|x l IH]; simpl.
  - apply keeps_ret.
  - apply keeps_bind; [apply H | intros _; exact IH].
Qed.

Lemma keeps_for_fold {A B : Type} (l : list A) (body : B -> A -> DB L B) :
  (forall acc x, keeps_committed L (body acc x)) ->
  forall acc, keeps_committed L (for_fold l acc body).
Proof.
  intros H. induction l as [|x l IH]; intros acc; simpl.
  - apply keeps_ret.
  - apply keeps_bind; [apply H | intros acc'; apply IH].
Qed.

Lemma keeps_strip v : keeps_committed L (strip L v).
Proof. destruct v; simpl; first [apply keeps_ret | apply keeps_raise]. Qed.

Lemma keeps_songplay_step acc row : keeps_committed L (songplay_step L acc row).
Proof.
  unfold songplay_step.
  apply keeps_bind; [apply keeps_execute | intros _].
  apply keeps_bind; [apply keeps_fetchone | intros results].
  apply keeps_bind.
  - destruct results as [[|a [|b [|x l]]]|];
      first [apply keeps_ret | apply keeps_raise].
  - intros ids. apply keeps_bind; [apply keeps_strip | intros ua; apply keeps_ret].
Qed.

Lemma keeps_to_datetime col : keeps_committed L (to_datetime L col).
Proof.
  unfold to_datetime. destruct (forallb _ col); [apply keeps_ret | apply keeps_raise].
Qed.

Lemma to_datetime_ok col (c c0 : session L) t :
  to_datetime L col c = (Ok t, c0) ->
  c0 = c /\ forall c', to_datetime L col c' = (Ok t, c').
Proof.
  unfold to_datetime. destruct (forallb _ col); unfold ret, raise; inversion 1; subst.
  now split.
Qed.

Lemma to_datetime_in_range col (c : session L) :
  forallb (datetime_ok L) col = true -> to_datetime L col c = (Ok col, c).
Proof. intros H. unfold to_datetime. now rewrite H. Qed.

Lemma keeps_before_copy df : keeps_committed L (before_copy L df).
Proof.
  unfold before_copy.
  apply keeps_bind; [apply keeps_to_datetime | intros _].
  apply keeps_bind; [apply keeps_for_each; intros; apply keeps_execute | intros _].
  apply keeps_bind; [apply keeps_for_each; intros; apply keeps_execute | intros _].
  apply keeps_for_fold. intros; apply keeps_songplay_step.
Qed.

Lemma process_log_file_unfold fs filepath evs (c : session L) :
  fs filepath = Some (File (JsonLines evs)) ->
  evs <> [] ->
  process_log_file L fs filepath c =
  (songplay_df <- before_copy L (filter next_song evs) ;;
   copy_from_stringio L songplay_df "songplays" (Some songplay_cols) ;;
   ret tt) c.
Proof.
  intros H Hne. unfold process_log_file, read_json_lines, before_copy. rewrite H.
  destruct evs as [|e0 evs0]; [contradiction|].
  unfold df_page, bind, ret. cbv beta iota.
  set (df := filter next_song (e0 :: evs0)).
  destruct (to_datetime L (map ts df) c) as [[t|e] c0]; [|reflexivity].
  destruct (for_each (time_df L df) _ c0) as [[[]|e] c1]; [|reflexivity].
  destruct (for_each (user_df L df) _ c1) as [[[]|e] c2]; reflexivity.
Qed.

(** The frame of a file without lines has no [page]. *)
Lemma process_log_file_no_lines fs filepath (c : session L) :
  fs filepath = Some (File (JsonLines [])) ->
  process_log_file L fs filepath c = (Raise AttributeError, c).
Proof.
  intros H. unfold process_log_file, read_json_lines. rewrite H. reflexivity.
Qed.

Lemma before_copy_nil (c : session L) : before_copy L [] c = (Ok [], c).
Proof. reflexivity. Qed.

Lemma for_fold_length {A B : Type} (step : list B -> A -> DB L (list B)) :
  (forall acc x c acc' c', step acc x c = (Ok acc', c') ->
                           List.length acc' = S (List.length acc)) ->
  forall l acc c rows c',
    for_fold l acc step c = (Ok rows, c') ->
    List.length rows = List.length acc + List.length l.
Proof.
  intros Hstep. induction l as [|x l IH]; intros acc c rows c' H; simpl in *.
  - inversion H; subst. lia.
  - unfold bind in H. destruct (step acc x c) as [[acc1|e] c1] eqn:E; [|discriminate].
    apply IH in H. apply Hstep in E. lia.
Qed.

Lemma songplay_step_length (acc : list (list (pyval L))) (e : event L)
    (c : session L) acc' c' :
  songplay_step L acc e c = (Ok acc', c') ->
  List.length acc' = S (List.length acc).
Proof.
  unfold songplay_step. unfold bind at 1.
  destruct (execute L song_select _ c) as [[[]|x] c1]; [|discriminate].
  unfold bind at 1. destruct (fetchone L c1) as [[results|x] c2]; [|discriminate].
  unfold bind at 1.
  destruct (match results with
            | Some [songid; artistid] => ret (songid, artistid)
            | Some (_ :: _) => raise ValueError
            | _ => ret (PNone, PNone)
            end c2) as [[ids|x] c3]; [|discriminate].
  unfold bind at 1. destruct (strip L (userAgent e) c3) as [[ua|x] c4]; [|discriminate].
  unfold ret. inversion 1; subst. rewrite length_app. simpl. lia.
Qed.

Lemma set_songplays_same (db : tables L) : set_songplays db (songplays db ++ []) = db.
Proof. destruct db. unfold set_songplays. simpl. now rewrite app_nil_r. Qed.

Lemma copy_from_nothing (c : session L) :
  copy_from L [] "songplays" (Some songplay_cols) c = (Ok tt, c).
Proof.
  unfold copy_from. cbn. rewrite set_songplays_same. now destruct c.
Qed.

(* ----------------------------------------------------------------- *)
(** *** The run *)

(** C4, as the code has it.  [process_data] catches nothing.  When the
    function given for a file raises, the exception leaves [process_data]
    at once: the files before it are committed, the commit for the failing
    file is not reached, the files after it are not processed, and no
    count of failed files is made.  One failure stays inside its file: when
    the bulk load of the fact rows fails, [process_log_file] ends normally
    with the whole transaction of the file rolled back, and the run goes
    on with the next file. *)
Theorem process_data_failure (fs : filesystem L) (filepath : string) :
  (forall (func : string -> DB L unit) c done f rest c1 e,
      get_files L fs filepath "*.json" (ExcludeStr ".ipynb_checkpoints")
        = Ok (done ++ f :: rest) ->
      for_each done (fun datafile => func datafile ;; commit L) c = (Ok tt, c1) ->
      fst (func f c1) = Raise e ->
      process_data L fs filepath func c = (Raise e, snd (func f c1)))
  /\ (forall f rest evs c songplay_df c1 e,
        fs f = Some (File (JsonLines evs)) ->
        before_copy L (filter next_song evs) c = (Ok songplay_df, c1) ->
        fst (copy_from L (to_csv songplay_df) "songplays" (Some songplay_cols) c1)
          = Raise e ->
        let rolled_back :=
          {| committed := committed c; working := committed c;
             result_set := result_set c1 |} in
        process_log_file L fs f c = (Ok tt, rolled_back)
        /\ for_each (f :: rest)
             (fun datafile => process_log_file L fs datafile ;; commit L) c
           = for_each rest
               (fun datafile => process_log_file L fs datafile ;; commit L) rolled_back).
Proof.
  split.
  - intros func c done f rest c1 e Hfiles Hdone Hf.
    unfold process_data. rewrite Hfiles. unfold bind at 1, lift.
    rewrite (for_each_app done (f :: rest) _ c c1 Hdone). simpl. unfold bind.
    destruct (func f c1) as [[[]|e'] c2]; simpl in *; [discriminate|]. congruence.
  - intros f rest evs c songplay_df c1 e Hf Hpre Hcopy rolled_back.
    assert (Hc : committed c1 = committed c) by (eapply keeps_before_copy; eassumption).
    assert (Hne : evs <> []).
    { intros ->. simpl in Hpre. rewrite before_copy_nil in Hpre. inversion Hpre; subst.
      change (to_csv []) with (@nil (list string)) in Hcopy.
      rewrite copy_from_nothing in Hcopy.
      discriminate. }
    assert (E : process_log_file L fs f c = (Ok tt, rolled_back)).
    { rewrite (process_log_file_unfold fs f evs c Hf Hne).
      rewrite (bind_ok _ _ c c1 songplay_df Hpre).
      unfold bind at 1.
      rewrite (copy_from_stringio_failed songplay_df "songplays" (Some songplay_cols)
                 c1 e Hcopy).
      unfold ret, rolled_back. now rewrite Hc. }
    split; [exact E|].
    simpl. unfold bind at 1. unfold bind at 1. rewrite E.
    unfold commit at 1. unfold rolled_back. reflexivity.
Qed.

(* ----------------------------------------------------------------- *)
(** *** Song files *)

Lemma getitem_present (df : list (string * pyval L)) (k : string) :
  has_field df k = true -> exists v, getitem L df k = ret v.
Proof.
  unfold has_field, getitem. intros H.
  destruct (find (fun kv => String.eqb (fst kv) k) df) as [kv|] eqn:E.
  - now exists (snd kv).
  - apply existsb_exists in H. destruct H as (kv & Hin & Hk).
    now rewrite (find_none _ _ E kv Hin) in Hk.
Qed.

Lemma song_insert_short_of_one (a b c d e : pyval L) (s : session L) :
  execute L song_table_insert [a; b; c; d; e] s = (Raise IndexError, s).
Proof. reflexivity. Qed.

(** Whatever the file is, [process_song_file] raises and leaves the
    session as it found it. *)
Lemma process_song_file_raises fs filepath (c : session L) :
  exists e, process_song_file L fs filepath c = (Raise e, c).
Proof.
  unfold process_song_file, read_json_series.
  destruct (fs filepath) as [[[o|evs|]|es]|];
    try (eexists; reflexivity).
  unfold bind at 1. unfold ret at 1.
  repeat
    (match goal with
     | |- context [getitem L o ?k] =>
         unfold bind at 1; unfold getitem at 1;
         destruct (find (fun kv => String.eqb (fst kv) k) o);
         [unfold ret at 1 | eexists; reflexivity]
     end).
  unfold bind at 1. rewrite song_insert_short_of_one. eexists; reflexivity.
Qed.

Lemma getitem_missing (df : list (string * pyval L)) (k : string) :
  has_field df k = false -> getitem L df k = raise (KeyError k).
Proof.
  unfold has_field, getitem. intros H.
  destruct (find (fun kv => String.eqb (fst kv) k) df) as [kv|] eqn:E; [|reflexivity].
  apply find_some in E. destruct E as [Hin Hk].
  assert (existsb (fun kv => String.eqb (fst kv) k) df = true)
    by (apply existsb_exists; now exists kv).
  congruence.
Qed.

Ltac read_field H :=
  let v := fresh "v" in
  let E := fresh "E" in
  destruct (getitem_present _ _ H) as [v E];
  unfold bind at 1; rewrite E; unfold ret at 1.

Ltac miss_field H :=
  unfold bind at 1; rewrite (getitem_missing _ _ H); reflexivity.

(** C2, as the code has it.  A song file that lacks one of the keys read
    for the song record makes [process_song_file] raise [KeyError] for the
    first key that is missing, before any statement is executed.
    [process_data] does not catch it: the exception is the end of the run,
    not of the file only. *)
Theorem song_file_missing_field (fs : filesystem L) (f : string)
    (doc : list (string * pyval L)) (c : session L)
    (before after : list string) (k : string) :
  fs f = Some (File (JsonObject doc)) ->
  song_fields = before ++ k :: after ->
  forallb (has_field doc) before = true ->
  has_field doc k = false ->
  process_song_file L fs f c = (Raise (KeyError k), c)
  /\ forall filepath rest,
       get_files L fs filepath "*.json" (ExcludeStr ".ipynb_checkpoints")
         = Ok (f :: rest) ->
       process_data L fs filepath (process_song_file L fs) c = (Raise (KeyError k), c).
Proof.
  intros Hf Hsplit Hbefore Hk.
  assert (E : process_song_file L fs f c = (Raise (KeyError k), c)).
  { unfold process_song_file, read_json_series. rewrite Hf.
    unfold bind at 1. unfold ret at 1. unfold song_fields in Hsplit.
    destruct before as [|b1 [|b2 [|b3 [|b4 [|b5 before]]]]];
      simpl in Hsplit; inversion Hsplit; subst; simpl in Hbefore;
      repeat match goal with
             | H : _ && _ = true |- _ => apply andb_true_iff in H; destruct H
             end.
    - miss_field Hk.
    - read_field H. miss_field Hk.
    - read_field H. read_field H0. miss_field Hk.
    - read_field H. read_field H0. read_field H1. miss_field Hk.
    - read_field H. read_field H0. read_field H1. read_field H2. miss_field Hk.
    - destruct before; discriminate. }
  split; [exact E|].
  intros filepath rest Hfiles. unfold process_data. rewrite Hfiles.
  unfold bind at 1, lift. simpl. unfold bind. now rewrite E.
Qed.

(** X1.  For a song file that has every key the function reads, [process_song_file] raises [IndexError] at the first statement:
    five values are bound to the six placeholders of
    [song_table_insert].  No row is inserted, neither into [songs] nor into
    [artists]. *)
Theorem process_song_file_complete_document fs filepath doc (c : session L) :
  fs filepath = Some (File (JsonObject doc)) ->
  forallb (has_field doc) required_fields = true ->
  process_song_file L fs filepath c = (Raise IndexError, c)
  /\ placeholders song_table_insert = 6.
Proof.
  intros Hf Hdoc. split; [|reflexivity].
  unfold process_song_file, read_json_series. rewrite Hf.
  unfold bind at 1. unfold ret at 1.
  rewrite forallb_forall in Hdoc.
  assert (H : forall k, In k ["song_id"; "title"; "artist_id"; "year"; "duration"] ->
                        exists v, getitem L doc k = ret v).
  { intros k Hk. apply getitem_present, Hdoc. unfold required_fields.
    simpl in *. intuition. }
  destruct (H "song_id") as [v1 E1]; [simpl; tauto|].
  destruct (H "title") as [v2 E2]; [simpl; tauto|].
  destruct (H "artist_id") as [v3 E3]; [simpl; tauto|].
  destruct (H "year") as [v4 E4]; [simpl; tauto|].
  destruct (H "duration") as [v5 E5]; [simpl; tauto|].
  unfold bind at 1. rewrite E1. unfold ret at 1.
  unfold bind at 1. rewrite E2. unfold ret at 1.
  unfold bind at 1. rewrite E3. unfold ret at 1.
  unfold bind at 1. rewrite E4. unfold ret at 1.
  unfold bind at 1. rewrite E5. unfold ret at 1.
  unfold bind at 1. now rewrite song_insert_short_of_one.
Qed.

(* ----------------------------------------------------------------- *)
(** *** Keys and conflicts *)

Lemma placeholders_user : placeholders user_table_insert = 5.
Proof. reflexivity. Qed.

Lemma placeholders_song : placeholders song_table_insert = 6.
Proof. reflexivity. Qed.

Lemma placeholders_artist : placeholders artist_table_insert = 5.
Proof. reflexivity. Qed.

Lemma placeholders_time : placeholders time_table_insert = 7.
Proof. reflexivity. Qed.

Lemma placeholders_select : placeholders song_select = 3.
Proof. reflexivity. Qed.

Lemma pyval_eqb_refl (v : pyval L) : pyval_eqb v v = true.
Proof.
  destruct v; simpl; try reflexivity.
  - apply String.eqb_refl.
  - apply Z.eqb_refl.
  - now destruct (pyfloat_eq_dec L x x).
  - apply Z.eqb_refl.
Qed.

Lemma pyval_eqb_eq (v w : pyval L) : pyval_eqb v w = true -> v = w.
Proof.
  destruct v, w; simpl; try discriminate; intros H.
  - reflexivity.
  - apply String.eqb_eq in H. now subst.
  - apply Z.eqb_eq in H. now subst.
  - destruct (pyfloat_eq_dec L x x0); [now subst | discriminate].
  - apply Z.eqb_eq in H. now subst.
Qed.

Lemma sql_eq_refl (v : pyval L) : is_null v = false -> sql_eq v v = true.
Proof. intros H. unfold sql_eq. now rewrite H, pyval_eqb_refl. Qed.

Lemma sql_eq_eq (v w : pyval L) : sql_eq v w = true -> v = w /\ is_null w = false.
Proof.
  unfold sql_eq. intros H.
  apply andb_true_iff in H. destruct H as [H1 H3].
  apply andb_true_iff in H1. destruct H1 as [H1 H2].
  split; [now apply pyval_eqb_eq | now destruct (is_null w)].
Qed.

Lemma has_key_not_null {R : Type} (key : R -> pyval L) (k : pyval L) (rows : list R) :
  has_key key k rows = true -> is_null k = false.
Proof.
  unfold has_key. intros H. apply existsb_exists in H.
  destruct H as (r & _ & H). now apply sql_eq_eq in H.
Qed.

Lemma has_key_app {R : Type} (key : R -> pyval L) (k : pyval L) (rows more : list R) :
  has_key key k (rows ++ more) = has_key key k rows || has_key key k more.
Proof. unfold has_key. apply existsb_app. Qed.

(** C10.  When [user_table_insert] is executed for a [user_id] that is in
    [users] already, the statement succeeds and changes nothing but the
    level of that user: the table keeps its rows in place, every row keeps
    its [user_id], [first_name], [last_name] and [gender], whatever the
    parameters carry for them, the row of that [user_id] gets the new
    level, and the other rows and tables are as before. *)
Theorem user_upsert_conflict (c : session L) (uid fn ln g lvl : pyval L) :
  has_key u_user_id uid (users (working c)) = true ->
  exists c',
    execute L user_table_insert [uid; fn; ln; g; lvl] c = (Ok tt, c')
    /\ level_overwritten L uid lvl c c'.
Proof.
  intros Hkey.
  pose proof (has_key_not_null _ _ _ Hkey) as Hnn.
  unfold execute, mogrify. rewrite placeholders_user.
  cbn [List.length Nat.ltb Nat.leb run]. unfold insert_user.
  cbn [u_user_id u_level]. rewrite Hnn, Hkey.
  eexists. split; [reflexivity|]. unfold level_overwritten. cbn.
  repeat (split; [reflexivity|]).
  split; [apply length_map|].
  intros i u Hi.
  exists (if sql_eq (u_user_id u) uid then set_level u lvl else u). split.
  - rewrite nth_error_map, Hi. reflexivity.
  - destruct (sql_eq (u_user_id u) uid); repeat split; reflexivity.
Qed.

(* ----------------------------------------------------------------- *)
(** *** The catalog load, run again *)

Lemma song_insert_conflict (c : session L) (a b t y d f : pyval L) :
  has_key s_song_id a (songs (working c)) = true ->
  execute L song_table_insert [a; b; t; y; d; f] c
  = (Ok tt, {| committed := committed c; working := working c; result_set := None |}).
Proof.
  intros Hkey. pose proof (has_key_not_null _ _ _ Hkey) as Hnn.
  unfold execute, mogrify. rewrite placeholders_song.
  cbn [List.length Nat.ltb Nat.leb run]. unfold insert_song.
  cbn [s_song_id]. now rewrite Hnn, Hkey.
Qed.

Lemma artist_insert_conflict (c : session L) (a n l la lo : pyval L) :
  has_key a_artist_id a (artists (working c)) = true ->
  execute L artist_table_insert [a; n; l; la; lo] c
  = (Ok tt, {| committed := committed c; working := working c; result_set := None |}).
Proof.
  intros Hkey. pose proof (has_key_not_null _ _ _ Hkey) as Hnn.
  unfold execute, mogrify. rewrite placeholders_artist.
  cbn [List.length Nat.ltb Nat.leb run]. unfold insert_artist.
  cbn [a_artist_id]. now rewrite Hnn, Hkey.
Qed.

Lemma settled_noop (op : statement * list (pyval L)) (c : session L) :
  settled op (working c) = true ->
  execute L (fst op) (snd op) c
  = (Ok tt, {| committed := committed c; working := working c; result_set := None |}).
Proof.
  destruct op as [q ps]. destruct q; simpl; try discriminate.
  - destruct ps as [|a [|b [|t [|y [|d [|f [|x ps]]]]]]]; try discriminate.
    apply song_insert_conflict.
  - destruct ps as [|a [|n [|l [|la [|lo [|x ps]]]]]]; try discriminate.
    apply artist_insert_conflict.
Qed.

(** A catalog statement that succeeds leaves its own key in the table,
    and every key that was there. *)
Lemma catalog_statement_settles (op : statement * list (pyval L)) (c c' : session L) :
  catalog_statement (fst op) = true ->
  execute L (fst op) (snd op) c = (Ok tt, c') ->
  settled op (working c') = true
  /\ forall op', settled op' (working c) = true -> settled op' (working c') = true.
Proof.
  destruct op as [q ps]. destruct q; simpl; try discriminate; intros _.
  - unfold execute, mogrify. rewrite placeholders_song.
    destruct ps as [|a [|b [|t [|y [|d [|f [|x ps]]]]]]];
      cbn [List.length Nat.ltb Nat.leb]; try discriminate.
    cbn [run]. unfold insert_song. cbn [s_song_id].
    destruct (is_null a) eqn:Hnn; [discriminate|].
    destruct (has_key s_song_id a (songs (working c))) eqn:Hkey;
      inversion 1; subst; cbn [working].
    + split; [exact Hkey | tauto].
    + split.
      * unfold settled, set_songs. cbn [songs]. rewrite has_key_app.
        unfold has_key at 2. cbn [existsb s_song_id]. rewrite (sql_eq_refl _ Hnn).
        apply orb_true_r.
      * intros [q' ps']. destruct q'; try discriminate.
        -- destruct ps' as [|a' [|b' [|t' [|y' [|d' [|f' [|x' ps']]]]]]];
             try discriminate.
           unfold settled, set_songs. cbn [songs]. rewrite has_key_app.
           intros ->. reflexivity.
        -- unfold settled, set_songs. cbn [artists]. tauto.
  - unfold execute, mogrify. rewrite placeholders_artist.
    destruct ps as [|a [|n [|l [|la [|lo [|x ps]]]]]];
      cbn [List.length Nat.ltb Nat.leb]; try discriminate.
    cbn [run]. unfold insert_artist. cbn [a_artist_id].
    destruct (is_null a) eqn:Hnn; [discriminate|].
    destruct (has_key a_artist_id a (artists (working c))) eqn:Hkey;
      inversion 1; subst; cbn [working].
    + split; [exact Hkey | tauto].
    + split.
      * unfold settled, set_artists. cbn [artists]. rewrite has_key_app.
        unfold has_key at 2. cbn [existsb a_artist_id]. rewrite (sql_eq_refl _ Hnn).
        apply orb_true_r.
      * intros [q' ps']. destruct q'; try discriminate.
        -- unfold settled, set_artists. cbn [songs]. tauto.
        -- destruct ps' as [|a' [|n' [|l' [|la' [|lo' [|x' ps']]]]]];
             try discriminate.
           unfold settled, set_artists. cbn [artists]. rewrite has_key_app.
           intros ->. reflexivity.
Qed.

Lemma execute_all_keeps_settled (ops : list (statement * list (pyval L))) :
  Forall (fun op => catalog_statement (fst op) = true) ops ->
  forall c c', execute_all L ops c = (Ok tt, c') ->
  forall op, settled op (working c) = true -> settled op (working c') = true.
Proof.
  induction 1 as [|op ops Hop Hops IH]; intros c c' Hrun op' Hs.
  - inversion Hrun; now subst.
  - unfold execute_all in Hrun. simpl in Hrun. unfold bind in Hrun.
    destruct (execute L (fst op) (snd op) c) as [[[]|e] c1] eqn:E; [|discriminate].
    destruct (catalog_statement_settles op c c1 Hop E) as [_ Hkeep].
    eapply IH; [exact Hrun | now apply Hkeep].
Qed.

Lemma execute_all_settles (ops : list (statement * list (pyval L))) :
  Forall (fun op => catalog_statement (fst op) = true) ops ->
  forall c c', execute_all L ops c = (Ok tt, c') ->
  Forall (fun op => settled op (working c') = true) ops.
Proof.
  induction 1 as [|op ops Hop Hops IH]; intros c c' Hrun; [constructor|].
  unfold execute_all in Hrun. simpl in Hrun. unfold bind in Hrun.
  destruct (execute L (fst op) (snd op) c) as [[[]|e] c1] eqn:E; [|discriminate].
  destruct (catalog_statement_settles op c c1 Hop E) as [Hown _].
  constructor.
  - eapply execute_all_keeps_settled; eassumption.
  - eapply IH; eassumption.
Qed.

Lemma execute_all_settled (ops : list (statement * list (pyval L))) (c : session L) :
  Forall (fun op => settled op (working c) = true) ops ->
  exists rs, execute_all L ops c
             = (Ok tt, {| committed := committed c; working := working c;
                          result_set := rs |}).
Proof.
  revert c. induction ops as [|op ops IH]; intros c Hs.
  - exists (result_set c). now destruct c.
  - inversion Hs as [|? ? Hop Hops]; subst.
    unfold execute_all. simpl. unfold bind. rewrite (settled_noop op c Hop).
    apply (IH {| committed := committed c; working := working c; result_set := None |}).
    exact Hops.
Qed.

Lemma process_data_song_files fs filepath (c : session L) :
  snd (process_data L fs filepath (process_song_file L fs) c) = c.
Proof.
  unfold process_data. rewrite get_files_contributions. unfold bind at 1, lift.
  destruct (flat_map _ _) as [|f files]; [reflexivity|].
  simpl. unfold bind.
  destruct (process_song_file_raises fs f c) as [e E]. now rewrite E.
Qed.

(** C9.  On [songs] and on [artists], the insert of a row whose key is in
    the table does nothing, whatever the other columns of the row are.
    Hence any sequence of the two catalog inserts that has run well, run
    again, changes no table; and a run of the catalog load over a set of
    files, repeated, leaves the session as the first run left it. *)
Theorem catalog_load_idempotent :
  (forall (c : session L) a b t y d f,
      has_key s_song_id a (songs (working c)) = true ->
      execute L song_table_insert [a; b; t; y; d; f] c
      = (Ok tt, {| committed := committed c; working := working c;
                   result_set := None |}))
  /\ (forall (c : session L) a n l la lo,
        has_key a_artist_id a (artists (working c)) = true ->
        execute L artist_table_insert [a; n; l; la; lo] c
        = (Ok tt, {| committed := committed c; working := working c;
                     result_set := None |}))
  /\ (forall ops (c c1 : session L),
        Forall (fun op => catalog_statement (fst op) = true) ops ->
        execute_all L ops c = (Ok tt, c1) ->
        exists rs, execute_all L ops c1
                   = (Ok tt, {| committed := committed c1; working := working c1;
                                result_set := rs |}))
  /\ (forall fs filepath (c : session L),
        let once := snd (process_data L fs filepath (process_song_file L fs) c) in
        let twice := snd (process_data L fs filepath (process_song_file L fs) once) in
        songs (committed twice) = songs (committed once)
        /\ artists (committed twice) = artists (committed once)
        /\ working twice = working once).
Proof.
  split; [exact song_insert_conflict|].
  split; [exact artist_insert_conflict|].
  split.
  - intros ops c c1 Hops Hrun. apply execute_all_settled.
    eapply execute_all_settles; eassumption.
  - intros fs filepath c once twice. unfold twice, once.
    rewrite !process_data_song_files. repeat split.
Qed.

(* ----------------------------------------------------------------- *)
(** *** The lookup of song and artist *)

Lemma select_song_rows (e : event L) (db : tables L) (r : list (pyval L)) :
  In r (select_song (song e) (artist e) (PStr (float_str L (length_ e))) db) <->
  exists s a, In s (songs db) /\ In a (artists db)
              /\ triple_match L e s a = true
              /\ r = [s_song_id s; s_artist_id s].
Proof.
  unfold select_song, triple_match. rewrite in_flat_map. split.
  - intros (s & Hs & Hr). apply in_flat_map in Hr. destruct Hr as (a & Ha & Hr).
    exists s, a. destruct (_ && _); [|contradiction].
    destruct Hr as [Hr|[]]. now repeat split.
  - intros (s & a & Hs & Ha & Hm & ->). exists s. split; [assumption|].
    apply in_flat_map. exists a. split; [assumption|]. rewrite Hm. now left.
Qed.

Lemma songplay_step_enriched (acc : list (list (pyval L))) (e : event L)
    (c : session L) (ua : string) :
  userAgent e = PStr ua ->
  exists row rs,
    songplay_step L acc e c
    = (Ok (acc ++ [row]),
       {| committed := committed c; working := working c; result_set := rs |})
    /\ enriched L (working c) e row.
Proof.
  intros Hua. unfold songplay_step.
  unfold bind at 1, execute, mogrify. rewrite placeholders_select.
  cbn [List.length Nat.ltb Nat.leb run].
  pose proof (select_song_rows e (working c)) as Hrows.
  destruct (select_song (song e) (artist e) (PStr (float_str L (length_ e))) (working c))
    as [|r rest].
  - unfold bind at 1, fetchone. cbn [result_set].
    unfold bind at 1, ret at 1. rewrite Hua. unfold bind at 1, strip, ret.
    eexists; eexists. split; [reflexivity|].
    exists PNone, PNone, (PStr (strip_quote ua)). split; [reflexivity|].
    right. repeat split. intros s a Hs Ha.
    destruct (triple_match L e s a) eqn:Hm; [|reflexivity].
    exfalso. apply (proj2 (Hrows [s_song_id s; s_artist_id s])).
    now exists s, a.
  - destruct (proj1 (Hrows r) (or_introl eq_refl)) as (s & a & Hs & Ha & Hm & ->).
    unfold bind at 1, fetchone. cbn [result_set].
    unfold bind at 1, ret at 1. rewrite Hua. unfold bind at 1, strip, ret.
    eexists; eexists. split; [reflexivity|].
    exists (s_song_id s), (s_artist_id s), (PStr (strip_quote ua)).
    split; [reflexivity|].
    left. exists s, a. repeat split; try assumption.
    unfold triple_match in Hm. apply andb_true_iff in Hm. destruct Hm as [Hm _].
    apply andb_true_iff in Hm. destruct Hm as [Hm _].
    apply andb_true_iff in Hm. destruct Hm as [Hm _].
    now apply sql_eq_eq in Hm.
Qed.

Lemma songplay_loop_enriched (df : list (event L)) :
  (forall e, In e df -> exists ua, userAgent e = PStr ua) ->
  forall (acc : list (list (pyval L))) (c : session L),
  exists rows rs,
    for_fold df acc (songplay_step L) c
    = (Ok (acc ++ rows),
       {| committed := committed c; working := working c; result_set := rs |})
    /\ Forall2 (enriched L (working c)) df rows.
Proof.
  induction df as [|e df IH]; intros Hua acc c.
  - exists [], (result_set c). simpl. rewrite app_nil_r. destruct c. now split.
  - destruct (Hua e (or_introl eq_refl)) as [ua He].
    destruct (songplay_step_enriched acc e c ua He) as (row & rs & Hstep & Hrow).
    destruct (IH (fun x Hx => Hua x (or_intror Hx)) (acc ++ [row])
                 {| committed := committed c; working := working c; result_set := rs |})
      as (rows & rs' & Hloop & Hrows).
    exists (row :: rows), rs'. split.
    + simpl. unfold bind. rewrite Hstep, Hloop. rewrite <- app_assoc. reflexivity.
    + constructor; assumption.
Qed.

(* ----------------------------------------------------------------- *)
(** *** The filter on the page *)

Lemma next_song_page (e : event L) : next_song e = true <-> page e = PStr "NextSong".
Proof.
  unfold next_song. destruct (page e); split; try discriminate.
  - intros H. apply String.eqb_eq in H. now subst.
  - intros H. inversion H. apply String.eqb_refl.
Qed.

Lemma insert_desc_length {A : Type} (x : Z * A) (l : list (Z * A)) :
  List.length (insert_desc x l) = S (List.length l).
Proof.
  induction l as [|y l IH]; simpl; [reflexivity|].
  destruct (Z.leb (fst y) (fst x)); simpl; [reflexivity | now rewrite IH].
Qed.

Lemma insert_desc_in {A : Type} (x y : Z * A) (l : list (Z * A)) :
  In y (insert_desc x l) <-> y = x \/ In y l.
Proof.
  induction l as [|z l IH]; simpl.
  - intuition.
  - destruct (Z.leb (fst z) (fst x)); simpl; [intuition|].
    rewrite IH. intuition.
Qed.

Lemma sort_values_desc_length {A : Type} (l : list (Z * A)) :
  List.length (sort_values_desc l) = List.length l.
Proof.
  induction l as [|x l IH]; simpl; [reflexivity|].
  now rewrite insert_desc_length, IH.
Qed.

Lemma sort_values_desc_in {A : Type} (y : Z * A) (l : list (Z * A)) :
  In y (sort_values_desc l) <-> In y l.
Proof.
  induction l as [|x l IH]; simpl; [tauto|].
  rewrite insert_desc_in, IH. intuition.
Qed.

(** C8.  Of the rows of the frame of a log file that has lines,
    [process_log_file] keeps those whose [page] is the string [NextSong],
    and only them.  All it does after the filter is done on the kept rows:
    two frames with the same kept rows are processed to the same result,
    so a row that fails the filter adds nothing to any table.  There is
    one time row, one user row and one fact row for each kept row, and
    each such row is made from a kept row.  (The rows are those of the
    frame: what a line that fails the filter does to the type of a column
    is in the cells of the kept rows already.) *)
Theorem next_song_filter (fs : filesystem L) (filepath : string)
    (evs : list (event L)) (c : session L) :
  fs filepath = Some (File (JsonLines evs)) ->
  evs <> [] ->
  (forall e, In e (filter next_song evs) <-> In e evs /\ page e = PStr "NextSong")
  /\ process_log_file L fs filepath c
     = (songplay_df <- before_copy L (filter next_song evs) ;;
        copy_from_stringio L songplay_df "songplays" (Some songplay_cols) ;;
        ret tt) c
  /\ (forall (fs' : filesystem L) filepath' evs',
        fs' filepath' = Some (File (JsonLines evs')) ->
        evs' <> [] ->
        filter next_song evs' = filter next_song evs ->
        process_log_file L fs' filepath' c = process_log_file L fs filepath c)
  /\ List.length (time_df L (filter next_song evs))
     = List.length (filter next_song evs)
  /\ List.length (user_df L (filter next_song evs))
     = List.length (filter next_song evs)
  /\ (forall c0 songplay_df c1,
        for_fold (filter next_song evs) [] (songplay_step L) c0 = (Ok songplay_df, c1) ->
        List.length songplay_df = List.length (filter next_song evs))
  /\ (forall row, In row (time_df L (filter next_song evs)) ->
        exists e, In e evs /\ page e = PStr "NextSong"
                  /\ hd_error row = Some (PTimestamp (ts e)))
  /\ (forall row, In row (user_df L (filter next_song evs)) ->
        exists e, In e evs /\ page e = PStr "NextSong"
                  /\ row = (ts e, [userId e; firstName e; lastName e; gender e; level e])).
Proof.
  intros Hf Hne.
  assert (Hkept : forall e, In e (filter next_song evs)
                            <-> In e evs /\ page e = PStr "NextSong").
  { intros e. rewrite filter_In, next_song_page. tauto. }
  split; [exact Hkept|].
  split; [now apply process_log_file_unfold|].
  split.
  { intros fs' filepath' evs' Hf' Hne' Hsame.
    rewrite (process_log_file_unfold fs' filepath' evs' c Hf' Hne').
    rewrite (process_log_file_unfold fs filepath evs c Hf Hne).
    now rewrite Hsame. }
  split; [unfold time_df; apply length_map|].
  split; [unfold user_df; now rewrite sort_values_desc_length, length_map|].
  split.
  { intros c0 songplay_df c1 H.
    apply (for_fold_length (songplay_step L)) in H; [exact H|].
    intros acc x s acc' s'. apply songplay_step_length. }
  split.
  - intros row Hrow. unfold time_df in Hrow. apply in_map_iff in Hrow.
    destruct Hrow as (e & <- & He). apply Hkept in He. exists e. tauto.
  - intros row Hrow. unfold user_df in Hrow. rewrite sort_values_desc_in in Hrow.
    apply in_map_iff in Hrow. destruct Hrow as (e & <- & He).
    apply Hkept in He. exists e. tauto.
Qed.

(* ----------------------------------------------------------------- *)
(** *** The level that stays *)

(** After [user_table_insert] for a [user_id] that is not NULL, the user
    is in the table and has the level that was bound last. *)
Lemma user_upsert_level (c : session L) (uid fn ln g lvl : pyval L) :
  is_null uid = false ->
  exists c',
    execute L user_table_insert [uid; fn; ln; g; lvl] c = (Ok tt, c')
    /\ has_key u_user_id uid (users (working c')) = true
    /\ forall u, In u (users (working c')) ->
                 sql_eq (u_user_id u) uid = true -> u_level u = lvl.
Proof.
  intros Hnn. unfold execute, mogrify. rewrite placeholders_user.
  cbn [List.length Nat.ltb Nat.leb run]. unfold insert_user.
  cbn [u_user_id u_level]. rewrite Hnn.
  destruct (has_key u_user_id uid (users (working c))) eqn:Hkey.
  - eexists. split; [reflexivity|]. cbn [working set_users users]. split.
    + unfold has_key in *. apply existsb_exists in Hkey.
      destruct Hkey as (u & Hin & Hu). apply existsb_exists.
      exists (if sql_eq (u_user_id u) uid then set_level u lvl else u). split.
      * apply in_map_iff. now exists u.
      * now rewrite Hu.
    + intros u Hin Hu. apply in_map_iff in Hin. destruct Hin as (u0 & <- & _).
      destruct (sql_eq (u_user_id u0) uid) eqn:E; [reflexivity | congruence].
  - eexists. split; [reflexivity|]. cbn [working set_users users]. split.
    + rewrite has_key_app. unfold has_key at 2. cbn [existsb u_user_id].
      rewrite (sql_eq_refl _ Hnn). apply orb_true_r.
    + intros u Hin Hu. apply in_app_or in Hin. destruct Hin as [Hin|[<-|[]]].
      * exfalso. assert (has_key u_user_id uid (users (working c)) = true).
        { apply existsb_exists. now exists u. }
        congruence.
      * reflexivity.
Qed.

(** Two events of one user, in either order in the file: the user loop
    binds the later one first and the earlier one last, and the level
    that stays is the level of the earlier event. *)
Lemma user_loop_earliest_wins (e1 e2 : event L) (c : session L) (df : list (event L)) :
  (ts e1 < ts e2)%Z ->
  userId e2 = userId e1 ->
  is_null (userId e1) = false ->
  df = [e1; e2] \/ df = [e2; e1] ->
  exists c',
    for_each (user_df L df) (fun row => execute L user_table_insert (snd row)) c
    = (Ok tt, c')
    /\ has_key u_user_id (userId e1) (users (working c')) = true
    /\ forall u, In u (users (working c')) ->
                 sql_eq (u_user_id u) (userId e1) = true -> u_level u = level e1.
Proof.
  intros Hts Hid Hnn Hdf.
  assert (E : user_df L df =
              [(ts e2, [userId e2; firstName e2; lastName e2; gender e2; level e2]);
               (ts e1, [userId e1; firstName e1; lastName e1; gender e1; level e1])]).
  { unfold user_df, sort_values_desc.
    destruct Hdf; subst df; cbn [map fold_right insert_desc fst].
    - destruct (Z.leb_spec (ts e2) (ts e1)); [lia | reflexivity].
    - destruct (Z.leb_spec (ts e1) (ts e2)); [reflexivity | lia]. }
  rewrite E. cbn [for_each snd]. rewrite Hid.
  destruct (user_upsert_level c (userId e1) (firstName e2) (lastName e2) (gender e2)
              (level e2) Hnn) as (c1 & E1 & _).
  destruct (user_upsert_level c1 (userId e1) (firstName e1) (lastName e1) (gender e1)
              (level e1) Hnn) as (c2 & E2 & Hkey & Hlevel).
  exists c2. unfold bind. rewrite E1, E2. now split.
Qed.

(* ----------------------------------------------------------------- *)
(** *** The run, further *)

Lemma get_files_nothing fs root filemask exclude :
  fs root = None
  \/ (forall w, In w (os_walk L fs root) -> glob L fs (walk_root w) filemask = []) ->
  get_files L fs root filemask exclude = Ok [].
Proof.
  intros H. rewrite get_files_contributions. f_equal. destruct H as [H|H].
  - unfold os_walk, scandir. now rewrite H.
  - induction (os_walk L fs root) as [|w ws IH]; simpl; [reflexivity|].
    rewrite IH by (intros w' Hw'; apply H; now right).
    unfold contribution. rewrite (H w) by now left.
    now destruct (truthy exclude && endswith_arg (walk_root w) exclude).
Qed.

(** X2.  [main] loads the log files only when no song file is found.  With
    a song file in [data/song_data] the first one ends the program: [main]
    raises, the session is as it was, and [data/log_data] is not looked
    at. *)
Theorem main_stops_at_first_song_file (fs : filesystem L) (c : session L) :
  (forall f rest,
      get_files L fs "data/song_data" "*.json" (ExcludeStr ".ipynb_checkpoints")
        = Ok (f :: rest) ->
      exists e, main L fs c = (Raise e, c)
                /\ process_song_file L fs f c = (Raise e, c))
  /\ (get_files L fs "data/song_data" "*.json" (ExcludeStr ".ipynb_checkpoints")
        = Ok [] ->
      main L fs c = process_data L fs "data/log_data" (process_log_file L fs) c).
Proof.
  split.
  - intros f rest Hfiles. destruct (process_song_file_raises fs f c) as [e E].
    exists e. split; [|exact E].
    unfold main, process_data. unfold bind at 1. unfold bind at 1.
    rewrite Hfiles. unfold lift. simpl. unfold bind. now rewrite E.
  - intros Hfiles. unfold main. unfold bind at 1. unfold process_data at 1.
    unfold bind at 1. rewrite Hfiles. reflexivity.
Qed.

(** X3.  When the directory given to [process_data] does not exist, or no
    walked directory has an entry matching [*.json], [process_data] calls
    the function for no file, commits nothing and ends normally with the
    session as it was. *)
Theorem process_data_nothing_found (fs : filesystem L) (filepath : string)
    (func : string -> DB L unit) (c : session L) :
  fs filepath = None
  \/ (forall w, In w (os_walk L fs filepath) -> glob L fs (walk_root w) "*.json" = []) ->
  process_data L fs filepath func c = (Ok tt, c).
Proof.
  intros H. unfold process_data. now rewrite (get_files_nothing _ _ _ _ H).
Qed.

Lemma commit_each_nothing_pending (func : string -> DB L unit) (files : list string) :
  files <> [] ->
  forall c c',
    for_each files (fun datafile => func datafile ;; commit L) c = (Ok tt, c') ->
    committed c' = working c'.
Proof.
  induction files as [|f files IH]; [congruence|]. intros _ c c' H.
  simpl in H. unfold bind in H.
  destruct (func f c) as [[[]|e] c1]; [|discriminate].
  unfold commit at 1 in H.
  destruct files as [|g files].
  - simpl in H. unfold ret in H. inversion H; subst. reflexivity.
  - apply (IH ltac:(discriminate) _ _ H).
Qed.

(** X4.  A run of [process_data] that ends normally over at least one file
    leaves nothing pending: what the open transaction sees is what is
    committed, whatever the function given for the files does. *)
Theorem process_data_nothing_pending (fs : filesystem L) (filepath : string)
    (func : string -> DB L unit) (c c' : session L) (f : string) (rest : list string) :
  get_files L fs filepath "*.json" (ExcludeStr ".ipynb_checkpoints") = Ok (f :: rest) ->
  process_data L fs filepath func c = (Ok tt, c') ->
  committed c' = working c'.
Proof.
  intros Hfiles H. unfold process_data in H. rewrite Hfiles in H.
  unfold bind at 1, lift in H.
  apply (commit_each_nothing_pending func (f :: rest) ltac:(discriminate) c c' H).
Qed.

Lemma read_json_lines_state fs filepath (c c' : session L) r :
  read_json_lines L fs filepath c = (r, c') -> c' = c.
Proof.
  unfold read_json_lines.
  destruct (fs filepath) as [[[o|evs|]|es]|]; unfold ret, raise; now inversion 1.
Qed.

(** X5.  [process_log_file] never leaves a file half committed.  When it
    raises, the committed tables are those of before the call: nothing of
    the file is committed.  When it returns, nothing is pending: the bulk
    load has committed the file or rolled it back. *)
Theorem process_log_file_transaction (fs : filesystem L) (filepath : string)
    (c c' : session L) (r : result unit) :
  process_log_file L fs filepath c = (r, c') ->
  match r with
  | Raise _ => committed c' = committed c
  | Ok _ => committed c' = working c'
  end.
Proof.
  destruct (fs filepath) as [[[o|evs|]|es]|] eqn:Hf;
    try (unfold process_log_file, read_json_lines; rewrite Hf;
         unfold bind, raise; inversion 1; reflexivity).
  destruct evs as [|e0 evs0];
    [rewrite (process_log_file_no_lines fs filepath c Hf); now inversion 1|].
  rewrite (process_log_file_unfold fs filepath _ c Hf) by discriminate.
  unfold bind at 1.
  destruct (before_copy L (filter next_song (e0 :: evs0)) c)
    as [[songplay_df|e] c1] eqn:E.
  - unfold bind at 1.
    destruct (copy_from L (to_csv songplay_df) "songplays" (Some songplay_cols) c1)
      as [[[]|e] c2] eqn:Ecopy.
    + rewrite (copy_from_stringio_stored _ _ _ _ _ Ecopy). unfold ret.
      inversion 1; subst. reflexivity.
    + rewrite (copy_from_stringio_failed songplay_df "songplays" (Some songplay_cols)
                 c1 e); [|now rewrite Ecopy].
      unfold ret. inversion 1; subst. reflexivity.
  - inversion 1; subst. eapply keeps_before_copy; eassumption.
Qed.

(** X6.  A log file that has lines, none of them a play, adds no row to
    any table and raises nothing; the empty bulk load still commits
    whatever the transaction had pending. *)
Theorem process_log_file_no_plays (fs : filesystem L) (filepath : string)
    (evs : list (event L)) (c : session L) :
  fs filepath = Some (File (JsonLines evs)) ->
  evs <> [] ->
  (forall e, In e evs -> page e <> PStr "NextSong") ->
  process_log_file L fs filepath c
  = (Ok tt, {| committed := working c; working := working c;
               result_set := result_set c |}).
Proof.
  intros Hf Hne Hnone.
  assert (Hkept : filter next_song evs = []).
  { clear Hf Hne. induction evs as [|e evs IH]; [reflexivity|]. simpl.
    destruct (next_song e) eqn:E.
    - apply next_song_page in E. exfalso. apply (Hnone e); [now left | exact E].
    - apply IH. intros x Hx. apply Hnone. now right. }
  rewrite (process_log_file_unfold fs filepath evs c Hf Hne), Hkept.
  rewrite (bind_ok _ _ c c [] (before_copy_nil c)). unfold bind at 1.
  rewrite (copy_from_stringio_stored [] "songplays" (Some songplay_cols) c c
             (copy_from_nothing c)).
  reflexivity.
Qed.

(* ----------------------------------------------------------------- *)
(** *** Primary keys *)

Lemma sql_eq_sym (v w : pyval L) : sql_eq v w = sql_eq w v.
Proof.
  destruct (sql_eq v w) eqn:E1, (sql_eq w v) eqn:E2; try reflexivity.
  - apply sql_eq_eq in E1. destruct E1 as [-> Hn].
    now rewrite (sql_eq_refl _ Hn) in E2.
  - apply sql_eq_eq in E2. destruct E2 as [-> Hn].
    now rewrite (sql_eq_refl _ Hn) in E1.
Qed.

Lemma distinct_keys_add {R : Type} (key : R -> pyval L) (rows : list R) (r : R) :
  distinct_keys key rows = true ->
  is_null (key r) = false ->
  has_key key (key r) rows = false ->
  distinct_keys key (rows ++ [r]) = true.
Proof.
  intros Hrows Hnn Hnew. induction rows as [|x rows IH]; simpl in *.
  - now rewrite Hnn.
  - apply andb_true_iff in Hrows. destruct Hrows as [Hx Hrows].
    apply andb_true_iff in Hx. destruct Hx as [Hxn Hxk].
    apply orb_false_iff in Hnew. destruct Hnew as [Hxr Hnew].
    rewrite Hxn, (IH Hrows Hnew). simpl. rewrite andb_true_r.
    rewrite has_key_app. unfold has_key at 2. simpl.
    rewrite sql_eq_sym, Hxr. rewrite orb_false_r. exact Hxk.
Qed.

Lemma has_key_map {R : Type} (key : R -> pyval L) (f : R -> R) (k : pyval L)
    (rows : list R) :
  (forall r, key (f r) = key r) ->
  has_key key k (map f rows) = has_key key k rows.
Proof.
  intros Hf. unfold has_key. induction rows as [|x rows IH]; simpl; [reflexivity|].
  now rewrite Hf, IH.
Qed.

Lemma distinct_keys_map {R : Type} (key : R -> pyval L) (f : R -> R) (rows : list R) :
  (forall r, key (f r) = key r) ->
  distinct_keys key (map f rows) = distinct_keys key rows.
Proof.
  intros Hf. induction rows as [|x rows IH]; simpl; [reflexivity|].
  now rewrite Hf, (has_key_map key f _ rows Hf), IH.
Qed.

Ltac split_keys H :=
  unfold primary_keys in H;
  apply andb_true_iff in H; destruct H as [H ?Hu];
  apply andb_true_iff in H; destruct H as [H ?Ht];
  apply andb_true_iff in H; destruct H as [?Hs ?Ha].

Lemma run_keeps_primary_keys (q : statement) (args : list (pyval L)) (db db' : tables L) rs :
  primary_keys db = true ->
  run L q args db = Ok (db', rs) ->
  primary_keys db' = true.
Proof.
  intros Hdb. pose proof Hdb as Hkeys. split_keys Hkeys.
  destruct q; simpl.
  - destruct args as [|a [|b [|c [|d [|e [|x args]]]]]]; try discriminate.
    unfold insert_user. cbn [u_user_id u_level].
    destruct (is_null a) eqn:Hnn; [discriminate|].
    destruct (has_key u_user_id a (users db)) eqn:Hkey; inversion 1; subst;
      unfold primary_keys, set_users; cbn [songs artists time users].
    + rewrite Hs, Ha, Ht. simpl. rewrite distinct_keys_map; [exact Hu|].
      intros r. now destruct (sql_eq (u_user_id r) a).
    + rewrite Hs, Ha, Ht. simpl. now apply distinct_keys_add.
  - destruct args as [|a [|b [|c [|d [|e [|f [|x args]]]]]]]; try discriminate.
    unfold insert_song. cbn [s_song_id].
    destruct (is_null a) eqn:Hnn; [discriminate|].
    destruct (has_key s_song_id a (songs db)) eqn:Hkey; inversion 1; subst;
      [exact Hdb|].
    unfold primary_keys, set_songs; cbn [songs artists time users].
    rewrite Ha, Ht, Hu. rewrite !andb_true_r. now apply distinct_keys_add.
  - destruct args as [|a [|b [|c [|d [|e [|x args]]]]]]; try discriminate.
    unfold insert_artist. cbn [a_artist_id].
    destruct (is_null a) eqn:Hnn; [discriminate|].
    destruct (has_key a_artist_id a (artists db)) eqn:Hkey; inversion 1; subst;
      [exact Hdb|].
    unfold primary_keys, set_artists; cbn [songs artists time users].
    rewrite Hs, Ht, Hu. rewrite !andb_true_r. simpl. now apply distinct_keys_add.
  - destruct args as [|a [|b [|c [|d [|e [|f [|g [|x args]]]]]]]]; try discriminate.
    unfold insert_time.
    cbn [t_start_time t_hour t_day t_week t_month t_year t_weekday].
    destruct (is_null a) eqn:Hnn; [discriminate|]. cbn [orb].
    destruct (is_null b || is_null c || is_null d || is_null e || is_null f
              || is_null g); [discriminate|].
    destruct (has_key t_start_time a (time db)) eqn:Hkey; inversion 1; subst;
      [exact Hdb|].
    unfold primary_keys, set_time; cbn [songs artists time users].
    rewrite Hs, Ha, Hu. rewrite !andb_true_r. simpl. now apply distinct_keys_add.
  - destruct args as [|a [|b [|c [|x args]]]]; try discriminate.
    inversion 1; subst. exact Hdb.
Qed.

Lemma keys_ret {A : Type} (a : A) : keeps_keys L (ret a).
Proof. intros c r c' Hc. unfold ret. inversion 1; subst. exact Hc. Qed.

Lemma keys_raise {A : Type} (e : exn) : keeps_keys L (@raise _ A e).
Proof. intros c r c' Hc. unfold raise. inversion 1; subst. exact Hc. Qed.

Lemma keys_bind {A B : Type} (m : DB L A) (k : A -> DB L B) :
  keeps_keys L m -> (forall a, keeps_keys L (k a)) -> keeps_keys L (bind m k).
Proof.
  intros Hm Hk c r c' Hc. unfold bind.
  destruct (m c) as [[a|e] c1] eqn:E; intros H.
  - eapply Hk; [|exact H]. eapply Hm; eassumption.
  - inversion H; subst. eapply Hm; eassumption.
Qed.

Lemma keys_try_except {A : Type} (m : DB L A) (h : exn -> DB L A) :
  keeps_keys L m -> (forall e, keeps_keys L (h e)) -> keeps_keys L (try_except m h).
Proof.
  intros Hm Hh c r c' Hc. unfold try_except.
  destruct (m c) as [[a|e] c1] eqn:E; intros H.
  - inversion H; subst. eapply Hm; eassumption.
  - eapply Hh; [|exact H]. eapply Hm; eassumption.
Qed.

Lemma keys_for_each {A : Type} (l : list A) (body : A -> DB L unit) :
  (forall x, keeps_keys L (body x)) -> keeps_keys L (for_each l body).
Proof.
  intros H. induction l as [|x l IH]; simpl.
  - apply keys_ret.
  - apply keys_bind; [apply H | intros _; exact IH].
Qed.

Lemma keys_for_fold {A B : Type} (l : list A) (body : B -> A -> DB L B) :
  (forall acc x, keeps_keys L (body acc x)) ->
  forall acc, keeps_keys L (for_fold l acc body).
Proof.
  intros H. induction l as [|x l IH]; intros acc; simpl.
  - apply keys_ret.
  - apply keys_bind; [apply H | intros acc'; apply IH].
Qed.

Lemma keys_execute q params : keeps_keys L (execute L q params).
Proof.
  intros c r c' [Hw Hc]. unfold execute.
  destruct (mogrify L q params) as [args|]; [|inversion 1; subst; now split].
  destruct (run L q args (working c)) as [[db rs]|] eqn:E;
    inversion 1; subst; [|now split].
  split; [|exact Hc]. cbn [working].
  exact (run_keeps_primary_keys q args (working c) db rs Hw E).
Qed.

Lemma keys_fetchone : keeps_keys L (fetchone L).
Proof.
  intros c r c' [Hw Hc]. unfold fetchone.
  destruct (result_set c) as [[|x rest]|]; inversion 1; subst; now split.
Qed.

Lemma keys_commit : keeps_keys L (commit L).
Proof. intros c r c' [Hw Hc]. unfold commit. inversion 1; subst. now split. Qed.

Lemma keys_rollback : keeps_keys L (rollback L).
Proof. intros c r c' [Hw Hc]. unfold rollback. inversion 1; subst. now split. Qed.

Lemma keys_copy_from buffer table columns : keeps_keys L (copy_from L buffer table columns).
Proof.
  intros c r c' [Hw Hc]. unfold copy_from.
  destruct (negb (String.eqb table "songplays")); [inversion 1; subst; now split|].
  destruct (check_columns _ _); [inversion 1; subst; now split|].
  destruct (copy_lines L _ buffer); inversion 1; subst; now split.
Qed.

Lemma keys_copy_from_stringio df table columns :
  keeps_keys L (copy_from_stringio L df table columns).
Proof.
  unfold copy_from_stringio. apply keys_try_except.
  - apply keys_bind; [apply keys_copy_from | intros _].
    apply keys_bind; [apply keys_commit | intros _; apply keys_ret].
  - intros e. apply keys_bind; [apply keys_rollback | intros _; apply keys_ret].
Qed.

Lemma keys_songplay_step acc row : keeps_keys L (songplay_step L acc row).
Proof.
  unfold songplay_step.
  apply keys_bind; [apply keys_execute | intros _].
  apply keys_bind; [apply keys_fetchone | intros results].
  apply keys_bind.
  - destruct results as [[|a [|b [|x l]]]|];
      first [apply keys_ret | apply keys_raise].
  - intros ids. apply keys_bind; [|intros ua; apply keys_ret].
    destruct (userAgent row); simpl; first [apply keys_ret | apply keys_raise].
Qed.

Lemma keys_process_log_file fs filepath : keeps_keys L (process_log_file L fs filepath).
Proof.
  unfold process_log_file. apply keys_bind.
  - unfold read_json_lines.
    destruct (fs filepath) as [[[o|evs|]|es]|];
      first [apply keys_ret | apply keys_raise].
  - intros df.
    apply keys_bind;
      [destruct df; simpl; first [apply keys_ret | apply keys_raise] | intros _].
    apply keys_bind;
      [unfold to_datetime; destruct (forallb _ _);
       first [apply keys_ret | apply keys_raise] | intros _].
    apply keys_bind; [apply keys_for_each; intros; apply keys_execute | intros _].
    apply keys_bind; [apply keys_for_each; intros; apply keys_execute | intros _].
    apply keys_bind; [apply keys_for_fold; intros; apply keys_songplay_step|].
    intros songplay_df.
    apply keys_bind; [apply keys_copy_from_stringio | intros _; apply keys_ret].
Qed.

Lemma keys_process_data fs filepath (func : string -> DB L unit) :
  (forall f, keeps_keys L (func f)) -> keeps_keys L (process_data L fs filepath func).
Proof.
  intros Hfunc. unfold process_data. apply keys_bind.
  - intros c r c' Hc. unfold lift. inversion 1; subst. exact Hc.
  - intros files. apply keys_for_each. intros f.
    apply keys_bind; [apply Hfunc | intros _; apply keys_commit].
Qed.

(** X7.  The program keeps the primary keys.  From a session whose keyed
    tables ([songs], [artists], [time], [users]; pending and committed)
    have no NULL key and no key twice, every statement, the load of a log
    file, a run over a directory of log files and [main] end in such a
    session again, whether they return or raise. *)
Theorem primary_keys_kept (fs : filesystem L) (c c' : session L) :
  keyed L c ->
  (forall q params r, execute L q params c = (r, c') -> keyed L c')
  /\ (forall f r, process_log_file L fs f c = (r, c') -> keyed L c')
  /\ (forall filepath r,
        process_data L fs filepath (process_log_file L fs) c = (r, c') -> keyed L c')
  /\ (forall r, main L fs c = (r, c') -> keyed L c').
Proof.
  intros Hc. split; [|split; [|split]].
  - intros q params r H. eapply keys_execute; eassumption.
  - intros f r H. eapply keys_process_log_file; eassumption.
  - intros filepath r H.
    eapply (keys_process_data fs filepath); [|eassumption|eassumption].
    intros f. apply keys_process_log_file.
  - intros r H. unfold main in H.
    eapply keys_bind; [| |eassumption|eassumption].
    + apply keys_process_data. intros f c0 r0 c0' Hc0 H0.
      destruct (process_song_file_raises fs f c0) as [e E].
      rewrite E in H0. inversion H0; subst. exact Hc0.
    + intros u. apply keys_process_data. intros f. apply keys_process_log_file.
Qed.

(* ----------------------------------------------------------------- *)
(** *** The time records *)

Lemma only_time_grown_refl (c : session L) : only_time_grown L c c.
Proof. repeat split. exists []. now rewrite app_nil_r. Qed.

Lemma only_time_grown_trans (c1 c2 c3 : session L) :
  only_time_grown L c1 c2 -> only_time_grown L c2 c3 -> only_time_grown L c1 c3.
Proof.
  intros (A1 & A2 & A3 & A4 & A5 & x & A6) (B1 & B2 & B3 & B4 & B5 & y & B6).
  repeat split; try congruence. exists (x ++ y). rewrite B6, A6. now rewrite app_assoc.
Qed.

Lemma time_insert_succeeds (c : session L) (t h d w m y wd : Z) :
  exists c',
    execute L time_table_insert
      [PTimestamp t; PInt h; PInt d; PInt w; PInt m; PInt y; PInt wd] c = (Ok tt, c')
    /\ only_time_grown L c c'
    /\ has_key t_start_time (PTimestamp t) (time (working c')) = true.
Proof.
  unfold execute, mogrify. rewrite placeholders_time.
  cbn [List.length Nat.ltb Nat.leb run]. unfold insert_time.
  cbn [t_start_time t_hour t_day t_week t_month t_year t_weekday is_null orb].
  destruct (has_key t_start_time (PTimestamp t) (time (working c))) eqn:Hkey.
  - eexists. split; [reflexivity|]. split; [|exact Hkey].
    repeat split. exists []. cbn. now rewrite app_nil_r.
  - eexists. split; [reflexivity|]. split.
    + repeat split. eexists. reflexivity.
    + cbn [working set_time time]. rewrite has_key_app.
      unfold has_key at 2. cbn [existsb t_start_time].
      rewrite sql_eq_refl by reflexivity. apply orb_true_r.
Qed.

Lemma time_loop_grows (df : list (event L)) (c : session L) :
  exists c',
    for_each (time_df L df) (fun row => execute L time_table_insert row) c = (Ok tt, c')
    /\ only_time_grown L c c'
    /\ forall e, In e df ->
                 has_key t_start_time (PTimestamp (ts e)) (time (working c')) = true.
Proof.
  revert c. induction df as [|e df IH]; intros c.
  - exists c. split; [reflexivity|]. split; [apply only_time_grown_refl | intros e []].
  - destruct (time_insert_succeeds c (ts e) (dt_hour L (ts e)) (dt_day L (ts e))
                (dt_week L (ts e)) (dt_month L (ts e)) (dt_year L (ts e))
                (dt_weekday L (ts e))) as (c1 & E1 & G1 & K1).
    destruct (IH c1) as (c2 & E2 & G2 & K2).
    exists c2. split; [|split].
    + cbn [time_df map for_each]. unfold bind. rewrite E1. exact E2.
    + eapply only_time_grown_trans; eassumption.
    + intros x [<-|Hx]; [|now apply K2].
      destruct G2 as (_ & _ & _ & _ & _ & added & Hadd).
      rewrite Hadd, has_key_app, K1. reflexivity.
Qed.

Lemma time_insert_conflict (c : session L) (t h d w m y wd : Z) :
  has_key t_start_time (PTimestamp t) (time (working c)) = true ->
  execute L time_table_insert
    [PTimestamp t; PInt h; PInt d; PInt w; PInt m; PInt y; PInt wd] c
  = (Ok tt, {| committed := committed c; working := working c; result_set := None |}).
Proof.
  intros Hkey. unfold execute, mogrify. rewrite placeholders_time.
  cbn [List.length Nat.ltb Nat.leb run]. unfold insert_time.
  cbn [t_start_time t_hour t_day t_week t_month t_year t_weekday is_null orb].
  now rewrite Hkey.
Qed.

Lemma time_loop_settled (df : list (event L)) (c : session L) :
  (forall e, In e df ->
             has_key t_start_time (PTimestamp (ts e)) (time (working c)) = true) ->
  exists rs,
    for_each (time_df L df) (fun row => execute L time_table_insert row) c
    = (Ok tt, {| committed := committed c; working := working c; result_set := rs |}).
Proof.
  revert c. induction df as [|e df IH]; intros c Hkeys.
  - exists (result_set c). now destruct c.
  - cbn [time_df map for_each]. unfold bind.
    rewrite (time_insert_conflict c _ _ _ _ _ _ _ (Hkeys e (or_introl eq_refl))).
    apply (IH {| committed := committed c; working := working c; result_set := None |}).
    intros x Hx. apply Hkeys. now right.
Qed.

(** X8.  The loop over the time records cannot fail: for any kept events
    every insert is accepted (no column of a time record is NULL).  It
    touches [time] only and only adds rows at its end; afterwards the
    timestamp of every kept event is a key of [time], and the same loop
    run again changes no table. *)
Theorem time_loop_succeeds (df : list (event L)) (c : session L) :
  exists c',
    for_each (time_df L df) (fun row => execute L time_table_insert row) c = (Ok tt, c')
    /\ only_time_grown L c c'
    /\ (forall e, In e df ->
                  has_key t_start_time (PTimestamp (ts e)) (time (working c')) = true)
    /\ exists rs,
         for_each (time_df L df) (fun row => execute L time_table_insert row) c'
         = (Ok tt, {| committed := committed c'; working := working c';
                      result_set := rs |}).
Proof.
  destruct (time_loop_grows df c) as (c' & E & G & K).
  exists c'. split; [exact E|]. split; [exact G|]. split; [exact K|].
  now apply time_loop_settled.
Qed.

(* ----------------------------------------------------------------- *)
(** *** The user records, in general *)

Lemma insert_desc_perm {A : Type} (x : Z * A) (l : list (Z * A)) :
  Permutation (insert_desc x l) (x :: l).
Proof.
  induction l as [|y l IH]; simpl; [reflexivity|].
  destruct (Z.leb (fst y) (fst x)); [reflexivity|].
  rewrite IH. apply perm_swap.
Qed.

Lemma sort_values_desc_perm {A : Type} (l : list (Z * A)) :
  Permutation (sort_values_desc l) l.
Proof.
  induction l as [|x l IH]; simpl; [constructor|].
  rewrite insert_desc_perm. now constructor.
Qed.

Lemma insert_desc_sorted {A : Type} (x : Z * A) (l : list (Z * A)) :
  StronglySorted (fun a b => (fst b <= fst a)%Z) l ->
  StronglySorted (fun a b => (fst b <= fst a)%Z) (insert_desc x l).
Proof.
  induction 1 as [|y l Hl IH Hy]; simpl.
  - constructor; constructor.
  - destruct (Z.leb_spec (fst y) (fst x)).
    + constructor; [now constructor|]. constructor; [assumption|].
      eapply Forall_impl; [|exact Hy]. simpl. intros; lia.
    + constructor; [assumption|].
      apply (Permutation_Forall (Permutation_sym (insert_desc_perm x l))).
      constructor; [lia | assumption].
Qed.

Lemma sort_values_desc_sorted {A : Type} (l : list (Z * A)) :
  StronglySorted (fun a b => (fst b <= fst a)%Z) (sort_values_desc l).
Proof.
  induction l as [|x l IH]; simpl; [constructor | now apply insert_desc_sorted].
Qed.

(** X9.  The user rows are the kept events, each once, in descending order
    of [ts]. *)
Theorem user_df_sorted (df : list (event L)) :
  Permutation (user_df L df) (map (user_columns L) df)
  /\ descending L (user_df L df).
Proof.
  split.
  - apply sort_values_desc_perm.
  - apply sort_values_desc_sorted.
Qed.





Lemma rows_of_events (P : event L -> Prop) (rows : list (Z * list (pyval L))) :
  (forall r, In r rows -> exists x, r = user_columns L x /\ P x) ->
  exists xs, rows = map (user_columns L) xs /\ forall x, In x xs -> P x.
Proof.
  induction rows as [|r rows IH]; intros H.
  - exists []. split; [reflexivity | intros x []].
  - destruct (H r (or_introl eq_refl)) as (x & -> & Hx).
    destruct (IH (fun r' Hr' => H r' (or_intror Hr'))) as (xs & -> & Hxs).
    exists (x :: xs). split; [reflexivity|]. intros y [<-|Hy]; auto.
Qed.


(* ----------------------------------------------------------------- *)
(** *** The user agent *)

Lemma lstrip_quote_start (s : string) : starts_with_quote (lstrip_quote s) = false.
Proof.
  induction s as [|c s IH]; simpl; [reflexivity|].
  destruct (Ascii.eqb c dquote) eqn:E; [exact IH | simpl; exact E].
Qed.

Lemma rstrip_quote_start (s : string) :
  starts_with_quote s = false -> starts_with_quote (rstrip_quote s) = false.
Proof.
  destruct s as [|c s]; simpl; [reflexivity|]. intros E.
  destruct (rstrip_quote s); [rewrite E|]; simpl; exact E.
Qed.

Lemma rstrip_quote_end (s : string) : ends_with_quote (rstrip_quote s) = false.
Proof.
  induction s as [|c s IH]; simpl; [reflexivity|].
  destruct (rstrip_quote s) as [|d r] eqn:E.
  - destruct (Ascii.eqb c dquote) eqn:Ec; simpl; [reflexivity | exact Ec].
  - exact IH.
Qed.

Lemma songplay_step_row (acc : list (list (pyval L))) (e : event L)
    (c : session L) acc' c' :
  songplay_step L acc e c = (Ok acc', c') ->
  exists songid artistid ua,
    userAgent e = PStr ua
    /\ acc' = acc ++ [fact_row L e songid artistid (PStr (strip_quote ua))].
Proof.
  unfold songplay_step. unfold bind at 1.
  destruct (execute L song_select _ c) as [[[]|x] c1]; [|discriminate].
  unfold bind at 1. destruct (fetchone L c1) as [[results|x] c2]; [|discriminate].
  unfold bind at 1.
  destruct (match results with
            | Some [songid; artistid] => ret (songid, artistid)
            | Some (_ :: _) => raise ValueError
            | _ => ret (PNone, PNone)
            end c2) as [[ids|x] c3]; [|discriminate].
  unfold bind at 1. destruct (userAgent e) as [|ua| | |]; simpl; try discriminate.
  unfold ret. inversion 1; subst. now exists (fst ids), (snd ids), ua.
Qed.

Lemma songplay_loop_rows (df : list (event L)) :
  forall (acc : list (list (pyval L))) (c : session L) rows c',
    for_fold df acc (songplay_step L) c = (Ok rows, c') ->
    exists new,
      rows = acc ++ new
      /\ Forall2 (fun e row =>
                    exists songid artistid ua,
                      userAgent e = PStr ua
                      /\ row = fact_row L e songid artistid (PStr (strip_quote ua)))
                 df new.
Proof.
  induction df as [|e df IH]; intros acc c rows c' H; simpl in H.
  - unfold ret in H. inversion H; subst. exists []. now rewrite app_nil_r.
  - unfold bind in H.
    destruct (songplay_step L acc e c) as [[acc1|x] c1] eqn:E; [|discriminate].
    apply songplay_step_row in E. destruct E as (a & b & ua & Hua & ->).
    apply IH in H. destruct H as (new & -> & Hnew).
    exists (fact_row L e a b (PStr (strip_quote ua)) :: new). split.
    + now rewrite <- app_assoc.
    + constructor; [now exists a, b, ua | exact Hnew].
Qed.

Lemma songplay_step_no_string (acc : list (list (pyval L))) (e : event L)
    (c : session L) :
  (forall ua, userAgent e <> PStr ua) ->
  fst (songplay_step L acc e c) = Raise AttributeError.
Proof.
  intros Hbad. unfold songplay_step.
  unfold bind at 1, execute, mogrify. rewrite placeholders_select.
  cbn [List.length Nat.ltb Nat.leb run].
  pose proof (select_song_rows e (working c)) as Hrows.
  destruct (userAgent e) as [|ua|z|x|ms] eqn:Hua;
    try (exfalso; now apply (Hbad ua));
    (destruct (select_song (song e) (artist e) (PStr (float_str L (length_ e)))
                (working c)) as [|r rest];
     [reflexivity|];
     destruct (proj1 (Hrows r) (or_introl eq_refl)) as (s & a & _ & _ & _ & ->);
     reflexivity).
Qed.

(** X11.  The user agent of a fact row.  When the loop over the kept
    events ends well, every event had a string for its [userAgent] and the
    last cell of its fact row is that string without the double quotes at
    its ends: it neither begins nor ends with one.  When a kept event has
    something else than a string there (a missing value), the loop raises
    [AttributeError] at that event and no frame is made. *)
Theorem fact_rows_user_agent (df : list (event L)) (c : session L) :
  (forall rows c',
      for_fold df [] (songplay_step L) c = (Ok rows, c') ->
      Forall2 (fun e row =>
                 exists ua,
                   userAgent e = PStr ua
                   /\ nth_error row 7 = Some (PStr (strip_quote ua))
                   /\ starts_with_quote (strip_quote ua) = false
                   /\ ends_with_quote (strip_quote ua) = false)
              df rows)
  /\ (forall good e rest,
        df = good ++ e :: rest ->
        (forall x, In x good -> exists ua, userAgent x = PStr ua) ->
        (forall ua, userAgent e <> PStr ua) ->
        fst (for_fold df [] (songplay_step L) c) = Raise AttributeError).
Proof.
  split.
  - intros rows c' H. apply songplay_loop_rows in H.
    destruct H as (new & -> & Hnew). simpl.
    eapply Forall2_impl; [|exact Hnew]. simpl.
    intros e row (a & b & ua & Hua & ->). exists ua.
    split; [exact Hua|]. split; [reflexivity|]. split.
    + unfold strip_quote. apply rstrip_quote_start, lstrip_quote_start.
    + unfold strip_quote. apply rstrip_quote_end.
  - intros good e rest -> Hgood Hbad.
    destruct (songplay_loop_enriched good Hgood [] c) as (rows & rs & Hloop & _).
    assert (Happ : forall l1 l2 acc s acc1 s1,
               for_fold l1 acc (songplay_step L) s = (Ok acc1, s1) ->
               for_fold (l1 ++ l2) acc (songplay_step L) s
               = for_fold l2 acc1 (songplay_step L) s1).
    { induction l1 as [|x l1 IH]; intros l2 acc s acc1 s1 H; simpl in *.
      - unfold ret in H. now inversion H.
      - unfold bind in *. destruct (songplay_step L acc x s) as [[a1|x1] s2];
          [now apply IH | discriminate]. }
    rewrite (Happ _ _ _ _ _ _ Hloop). simpl. unfold bind at 1.
    now rewrite (surjective_pairing (songplay_step L _ e _)),
      (songplay_step_no_string _ e _ Hbad).
Qed.

(* ----------------------------------------------------------------- *)
(** *** What the bulk load refuses *)

Lemma copy_field_null (col : string) : copy_field L col "NULL" = Ok PNone.
Proof. reflexivity. Qed.

Lemma copy_line_eight (a b c d e f g h : string) (va vb vc vd ve vf vg vh : pyval L) :
  copy_field L "start_time" a = Ok va ->
  copy_field L "user_id" b = Ok vb ->
  copy_field L "level" c = Ok vc ->
  copy_field L "song_id" d = Ok vd ->
  copy_field L "artist_id" e = Ok ve ->
  copy_field L "session_id" f = Ok vf ->
  copy_field L "location" g = Ok vg ->
  copy_field L "user_agent" h = Ok vh ->
  copy_line L songplay_cols [a; b; c; d; e; f; g; h]
  = if is_null va || is_null vb || is_null vc then Raise IntegrityError
    else Ok {| sp_start_time := va; sp_user_id := vb; sp_level := vc; sp_song_id := vd;
               sp_artist_id := ve; sp_session_id := vf; sp_location := vg;
               sp_user_agent := vh |}.
Proof.
  intros Ha Hb Hc Hd He Hf Hg Hh. unfold copy_line. cbn [read_fields songplay_cols].
  rewrite Ha, Hb, Hc, Hd, He, Hf, Hg, Hh. reflexivity.
Qed.

(** A line of eight fields whose [user_id] or [level] is the null string
    is refused, by the type of a column or by NOT NULL. *)
Lemma copy_line_null (a b c d e f g h : string) :
  b = "NULL" \/ c = "NULL" ->
  exists err, copy_line L songplay_cols [a; b; c; d; e; f; g; h] = Raise err.
Proof.
  intros Hnull.
  destruct (copy_field L "start_time" a) as [va|xa] eqn:Ea;
    [|eexists; unfold copy_line; cbn [read_fields songplay_cols]; now rewrite Ea].
  destruct (copy_field L "user_id" b) as [vb|xb] eqn:Eb;
    [|eexists; unfold copy_line; cbn [read_fields songplay_cols]; now rewrite Ea, Eb].
  destruct (copy_field L "level" c) as [vc|xc] eqn:Ec;
    [|eexists; unfold copy_line; cbn [read_fields songplay_cols]; now rewrite Ea, Eb, Ec].
  destruct (copy_field L "song_id" d) as [vd|xd] eqn:Ed;
    [|eexists; unfold copy_line; cbn [read_fields songplay_cols];
      now rewrite Ea, Eb, Ec, Ed].
  destruct (copy_field L "artist_id" e) as [ve|xe] eqn:Ee;
    [|eexists; unfold copy_line; cbn [read_fields songplay_cols];
      now rewrite Ea, Eb, Ec, Ed, Ee].
  destruct (copy_field L "session_id" f) as [vf|xf] eqn:Ef;
    [|eexists; unfold copy_line; cbn [read_fields songplay_cols];
      now rewrite Ea, Eb, Ec, Ed, Ee, Ef].
  destruct (copy_field L "location" g) as [vg|xg] eqn:Eg;
    [|eexists; unfold copy_line; cbn [read_fields songplay_cols];
      now rewrite Ea, Eb, Ec, Ed, Ee, Ef, Eg].
  destruct (copy_field L "user_agent" h) as [vh|xh] eqn:Eh;
    [|eexists; unfold copy_line; cbn [read_fields songplay_cols];
      now rewrite Ea, Eb, Ec, Ed, Ee, Ef, Eg, Eh].
  rewrite (copy_line_eight a b c d e f g h _ _ _ _ _ _ _ _ Ea Eb Ec Ed Ee Ef Eg Eh).
  assert (Hn : is_null vb = true \/ is_null vc = true).
  { destruct Hnull as [->| ->]; [left | right].
    - rewrite copy_field_null in Eb. now inversion Eb.
    - rewrite copy_field_null in Ec. now inversion Ec. }
  exists IntegrityError.
  destruct Hn as [-> | ->]; now rewrite ?orb_true_r.
Qed.

Lemma copy_from_songplays (buffer : list (list string)) (c : session L) :
  copy_from L buffer "songplays" (Some songplay_cols) c
  = match copy_lines L songplay_cols buffer with
    | Raise e => (Raise e, c)
    | Ok rows =>
        (Ok tt,
         {| committed := committed c;
            working := set_songplays (working c) (songplays (working c) ++ rows);
            result_set := result_set c |})
    end.
Proof. reflexivity. Qed.

Lemma copy_lines_null (df : list (event L)) (rows : list (list (pyval L))) :
  fact_rows_of L df rows ->
  (exists e, In e df /\ (csv_text L (userId e) = "NULL"
                         \/ csv_text L (level e) = "NULL")) ->
  exists err, copy_lines L songplay_cols (to_csv rows) = Raise err.
Proof.
  induction 1 as [|e row df rows (a & b & u & ->) Hrest IH]; intros (x & Hx & Hbad).
  - destruct Hx.
  - unfold to_csv in *. cbn [map fact_row copy_lines].
    destruct (copy_line L songplay_cols _) as [r|err] eqn:Eline; [|now eexists].
    destruct Hx as [<-|Hx].
    + destruct (copy_line_null (csv_text L (PTimestamp (ts e))) (csv_text L (userId e))
                  (csv_text L (level e)) (csv_text L a) (csv_text L b)
                  (csv_text L (sessionId e)) (csv_text L (location e)) (csv_text L u)
                  Hbad) as (err & E).
      rewrite E in Eline. discriminate.
    + destruct IH as [err ->]; [now exists x | now eexists].
Qed.

(** X12.  What the bulk load does with fact rows that lack a user or a
    level.  When a kept row has a [userId] or a [level] that is written to
    the buffer as the null string ([None], NaN, or a string that is
    written as [NULL]), the load fails as a whole: the store refuses the
    line, nothing is stored, the transaction is rolled back and the value
    is 1. *)
Theorem fact_rows_load (df : list (event L)) (rows : list (list (pyval L)))
    (c : session L) :
  fact_rows_of L df rows ->
  (exists e, In e df /\ (csv_text L (userId e) = "NULL"
                         \/ csv_text L (level e) = "NULL")) ->
  (exists err, copy_from L (to_csv rows) "songplays" (Some songplay_cols) c
               = (Raise err, c))
  /\ copy_from_stringio L rows "songplays" (Some songplay_cols) c
     = (Ok (PInt 1),
        {| committed := committed c; working := committed c;
           result_set := result_set c |}).
Proof.
  intros Hrows Hbad. destruct (copy_lines_null df rows Hrows Hbad) as (err & E).
  split.
  - exists err. rewrite copy_from_songplays. now rewrite E.
  - apply (copy_from_stringio_failed rows "songplays" (Some songplay_cols) c err).
    rewrite copy_from_songplays. now rewrite E.
Qed.

(* ----------------------------------------------------------------- *)
(** *** The exclusion argument *)

Lemma flat_map_contribution fs filemask exclude (ws : list walk_item) :
  flat_map (contribution L fs filemask exclude) ws
  = flat_map (fun w => map (abspath L) (glob L fs (walk_root w) filemask))
      (filter (fun w => negb (truthy exclude && endswith_arg (walk_root w) exclude)) ws).
Proof.
  induction ws as [|w ws IH]; simpl; [reflexivity|].
  unfold contribution at 1.
  destruct (truthy exclude && endswith_arg (walk_root w) exclude); simpl; now rewrite IH.
Qed.

(** X13.  The [exclude] argument in its other forms.  With the default,
    the empty string, and with an empty tuple nothing is excluded:
    [get_files] returns the matches of every walked directory.  With a
    tuple of suffixes a directory adds nothing as soon as its path ends
    with one of them. *)
Theorem get_files_exclude_forms (fs : filesystem L) (filepath filemask : string) :
  get_files L fs filepath filemask (ExcludeStr "")
  = Ok (flat_map (fun w => map (abspath L) (glob L fs (walk_root w) filemask))
          (os_walk L fs filepath))
  /\ get_files L fs filepath filemask (ExcludeTuple [])
     = get_files L fs filepath filemask (ExcludeStr "")
  /\ forall s l,
       get_files L fs filepath filemask (ExcludeTuple (s :: l))
       = Ok (flat_map (fun w => map (abspath L) (glob L fs (walk_root w) filemask))
               (filter (fun w => negb (existsb (endswith (walk_root w)) (s :: l)))
                  (os_walk L fs filepath))).
Proof.
  assert (Hall : forall x, truthy x = false ->
            get_files L fs filepath filemask x
            = Ok (flat_map (fun w => map (abspath L) (glob L fs (walk_root w) filemask))
                    (os_walk L fs filepath))).
  { intros x Hx. rewrite get_files_contributions, flat_map_contribution. f_equal.
    f_equal. rewrite Hx. simpl.
    induction (os_walk L fs filepath) as [|w ws IH]; simpl; [reflexivity | now rewrite IH]. }
  split; [now apply Hall|]. split; [now rewrite !Hall|].
  intros s l. now rewrite get_files_contributions, flat_map_contribution.
Qed.

(* ----------------------------------------------------------------- *)
(** *** A log file loaded again *)

Lemma same_but_users_trans (c1 c2 c3 : session L) :
  same_but_users L c1 c2 -> same_but_users L c2 c3 -> same_but_users L c1 c3.
Proof.
  intros (A1 & A2 & A3 & A4 & A5) (B1 & B2 & B3 & B4 & B5).
  repeat split; congruence.
Qed.

Lemma has_key_same_keys {R : Type} (key : R -> pyval L) (k : pyval L) (rows rows' : list R) :
  map key rows' = map key rows -> has_key key k rows' = has_key key k rows.
Proof.
  unfold has_key. revert rows'. induction rows as [|r rows IH]; intros [|r' rows'];
    simpl; try discriminate; [reflexivity|].
  intros H. inversion H. now rewrite (IH rows') by assumption.
Qed.

Lemma user_upsert_inv (c c' : session L) (uid fn ln g lvl : pyval L) :
  execute L user_table_insert [uid; fn; ln; g; lvl] c = (Ok tt, c') ->
  is_null uid = false
  /\ same_but_users L c c'
  /\ has_key u_user_id uid (users (working c')) = true
  /\ (forall k, has_key u_user_id k (users (working c)) = true ->
                has_key u_user_id k (users (working c')) = true)
  /\ (has_key u_user_id uid (users (working c)) = true ->
      map u_user_id (users (working c')) = map u_user_id (users (working c))).
Proof.
  unfold execute, mogrify. rewrite placeholders_user.
  cbn [List.length Nat.ltb Nat.leb run]. unfold insert_user.
  cbn [u_user_id u_level].
  destruct (is_null uid) eqn:Hnn; [discriminate|].
  destruct (has_key u_user_id uid (users (working c))) eqn:Hkey;
    inversion 1; subst; cbn [working set_users users committed songs artists time
                               songplays].
  - assert (Hkeys : map u_user_id
                      (map (fun u => if sql_eq (u_user_id u) uid
                                     then set_level u lvl else u) (users (working c)))
                    = map u_user_id (users (working c))).
    { rewrite map_map. apply map_ext. intros u.
      now destruct (sql_eq (u_user_id u) uid). }
    split; [reflexivity|]. split; [now repeat split|].
    split; [now rewrite (has_key_same_keys _ _ _ _ Hkeys)|].
    split; [|intros _; exact Hkeys].
    intros k Hk. now rewrite (has_key_same_keys _ _ _ _ Hkeys).
  - split; [reflexivity|]. split; [now repeat split|].
    split.
    + rewrite has_key_app. unfold has_key at 2. cbn [existsb u_user_id].
      rewrite (sql_eq_refl _ Hnn). apply orb_true_r.
    + split; [|discriminate]. intros k Hk. now rewrite has_key_app, Hk.
Qed.

Lemma user_loop_inv (xs : list (event L)) (c c' : session L) :
  for_each (map (user_columns L) xs)
    (fun row => execute L user_table_insert (snd row)) c = (Ok tt, c') ->
  same_but_users L c c'
  /\ (forall k, has_key u_user_id k (users (working c)) = true ->
                has_key u_user_id k (users (working c')) = true)
  /\ forall x, In x xs ->
               is_null (userId x) = false
               /\ has_key u_user_id (userId x) (users (working c')) = true.
Proof.
  revert c. induction xs as [|x xs IH]; intros c H.
  - simpl in H. unfold ret in H. inversion H; subst.
    split; [now repeat split|]. split; [auto | intros x []].
  - cbn [map for_each user_columns snd] in H. unfold bind in H.
    destruct (execute L user_table_insert
                [userId x; firstName x; lastName x; gender x; level x] c)
      as [[[]|e] c1] eqn:E; [|discriminate].
    apply user_upsert_inv in E. destruct E as (Hnn & Hsame & Hkey & Hmono & _).
    apply IH in H. destruct H as (Hsame' & Hmono' & Hall).
    split; [eapply same_but_users_trans; eassumption|].
    split; [auto|].
    intros y [<-|Hy]; [split; auto | now apply Hall].
Qed.

Lemma user_loop_present (xs : list (event L)) (c : session L) :
  (forall x, In x xs ->
             is_null (userId x) = false
             /\ has_key u_user_id (userId x) (users (working c)) = true) ->
  exists c',
    for_each (map (user_columns L) xs)
      (fun row => execute L user_table_insert (snd row)) c = (Ok tt, c')
    /\ same_but_users L c c'
    /\ map u_user_id (users (working c')) = map u_user_id (users (working c)).
Proof.
  revert c. induction xs as [|x xs IH]; intros c Hall.
  - exists c. split; [reflexivity|]. split; [now repeat split | reflexivity].
  - destruct (Hall x (or_introl eq_refl)) as [Hnn Hkey].
    destruct (user_upsert_level c (userId x) (firstName x) (lastName x) (gender x)
                (level x) Hnn) as (c1 & E1 & _).
    destruct (user_upsert_inv _ _ _ _ _ _ _ E1) as (_ & Hsame & _ & Hmono & Hkeys).
    specialize (Hkeys Hkey).
    destruct (IH c1) as (c2 & E2 & Hsame2 & Hkeys2).
    { intros y Hy. destruct (Hall y (or_intror Hy)) as [Hy1 Hy2]. split; auto. }
    exists c2. split; [|split].
    + cbn [map for_each user_columns snd]. unfold bind. now rewrite E1.
    + eapply same_but_users_trans; eassumption.
    + congruence.
Qed.

Lemma select_song_catalog (a b d : pyval L) (db db' : tables L) :
  songs db' = songs db -> artists db' = artists db ->
  select_song a b d db' = select_song a b d db.
Proof. intros Hs Ha. unfold select_song. now rewrite Hs, Ha. Qed.

Lemma songplay_step_state (acc : list (list (pyval L))) (e : event L)
    (c c' : session L) r :
  songplay_step L acc e c = (r, c') ->
  working c' = working c /\ committed c' = committed c.
Proof.
  unfold songplay_step.
  unfold bind at 1, execute, mogrify. rewrite placeholders_select.
  cbn [List.length Nat.ltb Nat.leb run].
  destruct (select_song (song e) (artist e) (PStr (float_str L (length_ e))) (working c))
    as [|[|a [|b [|x row]]] rest];
    destruct (userAgent e); inversion 1; subst; now split.
Qed.

Lemma execute_song_select (a b d : pyval L) (c : session L) :
  execute L song_select [a; b; d] c
  = (Ok tt, {| committed := committed c; working := working c;
               result_set := Some (select_song a b d (working c)) |}).
Proof. unfold execute, mogrify. rewrite placeholders_select. reflexivity. Qed.

Lemma songplay_step_catalog (acc : list (list (pyval L))) (e : event L)
    (c c' : session L) :
  songs (working c') = songs (working c) ->
  artists (working c') = artists (working c) ->
  fst (songplay_step L acc e c') = fst (songplay_step L acc e c).
Proof.
  intros Hs Ha. unfold songplay_step.
  rewrite (bind_ok _ _ c' _ tt (execute_song_select _ _ _ c')).
  rewrite (bind_ok _ _ c _ tt (execute_song_select _ _ _ c)).
  rewrite (select_song_catalog _ _ _ (working c) (working c') Hs Ha).
  destruct (select_song (song e) (artist e) (PStr (float_str L (length_ e))) (working c))
    as [|[|a [|b [|x row]]] rest];
    destruct (userAgent e); reflexivity.
Qed.

Lemma songplay_loop_catalog (df : list (event L)) :
  forall (acc : list (list (pyval L))) (c c' c1 : session L) rows,
    songs (working c') = songs (working c) ->
    artists (working c') = artists (working c) ->
    for_fold df acc (songplay_step L) c = (Ok rows, c1) ->
    working c1 = working c
    /\ exists rs,
         for_fold df acc (songplay_step L) c'
         = (Ok rows, {| committed := committed c'; working := working c';
                        result_set := rs |}).
Proof.
  induction df as [|e df IH]; intros acc c c' c1 rows Hs Ha H; simpl in *.
  - unfold ret in *. inversion H; subst. split; [reflexivity|].
    exists (result_set c'). now destruct c'.
  - unfold bind in *.
    pose proof (songplay_step_catalog acc e c c' Hs Ha) as Hfst.
    destruct (songplay_step L acc e c) as [[acc1|x] c2] eqn:E; [|discriminate].
    destruct (songplay_step L acc e c') as [r c2'] eqn:E'.
    simpl in Hfst. subst r.
    apply songplay_step_state in E. destruct E as [Ew Ec].
    apply songplay_step_state in E'. destruct E' as [Ew' Ec'].
    destruct (IH acc1 c2 c2' c1 rows) as (Hw & rs & Hloop); try congruence.
    split; [congruence|]. exists rs. rewrite Hloop. now rewrite Ew', Ec'.
Qed.

Lemma enriched_catalog (db db' : tables L) (e : event L) (row : list (pyval L)) :
  songs db' = songs db -> artists db' = artists db ->
  enriched L db e row -> enriched L db' e row.
Proof.
  intros Hs Ha (songid & artistid & ua & Hrow & H). exists songid, artistid, ua.
  split; [exact Hrow|]. now rewrite Hs, Ha.
Qed.

(** The rows of [user_df] are the user columns of events. *)
Lemma user_df_rows (df : list (event L)) :
  exists xs, user_df L df = map (user_columns L) xs.
Proof.
  destruct (rows_of_events (fun _ => True) (user_df L df)) as (xs & Hxs & _).
  - intros r Hr. unfold user_df in Hr. rewrite sort_values_desc_in in Hr.
    apply in_map_iff in Hr. destruct Hr as (x & <- & _). now exists x.
  - now exists xs.
Qed.

(** C5.  [process_log_file] on a log file that has lines, whose retained
    rows have timestamps in range and a string for their [userAgent], and
    for which the loops over the time rows and the user rows end well.
    The steps before the bulk load then end well too and leave [songs],
    [artists] and [songplays] as they were; they make one fact row for each
    retained row, in order, and [process_log_file] hands exactly this
    frame to [copy_from_stringio].  The ids of a fact row come from
    [song_select] on the title, the artist name and [str] of the
    duration, compared with the stored string of the duration: when a song
    row and its artist row match these three, the row carries the ids of
    such a pair (of the first that the query returns); when none does,
    both ids are [None]. *)
Theorem songplay_rows_enriched (fs : filesystem L) (filepath : string)
    (evs : list (event L)) (c : session L) :
  fs filepath = Some (File (JsonLines evs)) ->
  evs <> [] ->
  forallb (datetime_ok L) (map ts (filter next_song evs)) = true ->
  (exists cT cU,
      for_each (time_df L (filter next_song evs))
        (fun row => execute L time_table_insert row) c = (Ok tt, cT)
      /\ for_each (user_df L (filter next_song evs))
           (fun row => execute L user_table_insert (snd row)) cT = (Ok tt, cU)) ->
  (forall e, In e evs -> page e = PStr "NextSong" -> exists ua, userAgent e = PStr ua) ->
  exists songplay_df ca,
    before_copy L (filter next_song evs) c = (Ok songplay_df, ca)
    /\ songs (working ca) = songs (working c)
    /\ artists (working ca) = artists (working c)
    /\ songplays (working ca) = songplays (working c)
    /\ committed ca = committed c
    /\ Forall2 (enriched L (working c)) (filter next_song evs) songplay_df
    /\ process_log_file L fs filepath c
       = (copy_from_stringio L songplay_df "songplays" (Some songplay_cols) ;; ret tt) ca.
Proof.
  intros Hf Hne Hrange (cT & cU & ET & EU) Hagents.
  set (kept := filter next_song evs) in *.
  assert (Hua : forall e, In e kept -> exists ua, userAgent e = PStr ua).
  { intros e He. apply filter_In in He. destruct He as [He Hp].
    apply (Hagents e He). now apply next_song_page. }
  destruct (time_loop_grows kept c) as (cT' & ET' & GT & _).
  rewrite ET in ET'. inversion ET'; subst cT'; clear ET'.
  destruct GT as (GT1 & GT2 & GT3 & GT4 & GT5 & _).
  destruct (user_df_rows kept) as (xs & Hxs).
  assert (EU' := EU). rewrite Hxs in EU'.
  destruct (user_loop_inv xs cT cU EU') as ((SU1 & SU2 & SU3 & SU4 & SU5) & _).
  destruct (songplay_loop_enriched kept Hua [] cU) as (rows & rs & Hloop & Hrows).
  simpl in Hloop.
  set (ca := {| committed := committed cU; working := working cU; result_set := rs |}).
  assert (Hpre : before_copy L kept c = (Ok rows, ca)).
  { unfold before_copy. unfold bind at 1.
    rewrite (to_datetime_in_range _ c Hrange).
    unfold bind at 1. rewrite ET. unfold bind at 1. rewrite EU. exact Hloop. }
  exists rows, ca. split; [exact Hpre|].
  unfold ca. cbn [working committed].
  split; [congruence|]. split; [congruence|]. split; [congruence|].
  split; [congruence|]. split.
  - eapply Forall2_impl; [|exact Hrows]. intros e row.
    apply enriched_catalog; congruence.
  - rewrite (process_log_file_unfold fs filepath evs c Hf Hne). fold kept.
    now rewrite (bind_ok _ _ c ca rows Hpre).
Qed.

Lemma copy_lines_length (cols : list string) (buffer : list (list string)) stored :
  copy_lines L cols buffer = Ok stored -> List.length stored = List.length buffer.
Proof.
  revert stored. induction buffer as [|cells buffer IH]; intros stored; simpl.
  - now inversion 1.
  - destruct (copy_line L cols cells); [|discriminate].
    destruct (copy_lines L cols buffer) as [rs|]; [|discriminate].
    inversion 1; subst. simpl. now rewrite (IH rs).
Qed.

(** X14.  A log file is not loaded twice to the same effect.  When the
    file, which has lines, was loaded and its fact rows stored, loading it
    again succeeds
    and stores the same fact rows once more, one for each kept event;
    [time], [songs] and [artists] stay as they are, and [users] keeps its
    rows and their keys. *)
Theorem process_log_file_again (fs : filesystem L) (filepath : string)
    (evs : list (event L)) (c ca cb : session L) (rows : list (list (pyval L))) :
  fs filepath = Some (File (JsonLines evs)) ->
  evs <> [] ->
  before_copy L (filter next_song evs) c = (Ok rows, ca) ->
  copy_from L (to_csv rows) "songplays" (Some songplay_cols) ca = (Ok tt, cb) ->
  exists stored c1 c2,
    process_log_file L fs filepath c = (Ok tt, c1)
    /\ process_log_file L fs filepath c1 = (Ok tt, c2)
    /\ List.length stored = List.length (filter next_song evs)
    /\ songplays (working c1) = songplays (working c) ++ stored
    /\ songplays (working c2) = songplays (working c1) ++ stored
    /\ time (working c2) = time (working c1)
    /\ songs (working c2) = songs (working c1)
    /\ artists (working c2) = artists (working c1)
    /\ map u_user_id (users (working c2)) = map u_user_id (users (working c1))
    /\ committed c2 = working c2.
Proof.
  intros Hf Hne Hpre Hcopy. set (kept := filter next_song evs) in *.
  (* the first load, step by step *)
  unfold before_copy in Hpre. unfold bind at 1 in Hpre.
  destruct (to_datetime L (map ts kept) c) as [[t|e] c0] eqn:ED; [|discriminate].
  destruct (to_datetime_ok _ _ _ _ ED) as [-> HD]. clear ED.
  unfold bind at 1 in Hpre.
  destruct (time_loop_grows kept c) as (cT & ET & GT & KT).
  rewrite ET in Hpre. unfold bind at 1 in Hpre.
  destruct (rows_of_events (fun _ => True) (user_df L kept)) as (xs & Hxs & _).
  { intros r Hr. unfold user_df in Hr. rewrite sort_values_desc_in in Hr.
    apply in_map_iff in Hr. destruct Hr as (x & <- & _). now exists x. }
  rewrite Hxs in Hpre.
  destruct (for_each (map (user_columns L) xs) _ cT) as [[[]|e] cU] eqn:EU;
    [|discriminate].
  destruct (user_loop_inv xs cT cU EU) as (SU & _ & KU).
  destruct (songplay_loop_catalog kept [] cU cU ca rows eq_refl eq_refl Hpre)
    as (Hwa & _).
  rewrite copy_from_songplays in Hcopy.
  destruct (copy_lines L songplay_cols (to_csv rows)) as [stored|] eqn:Elines;
    [|discriminate].
  inversion Hcopy; subst cb; clear Hcopy.
  destruct GT as (GT1 & GT2 & GT3 & GT4 & GT5 & added & GT6).
  destruct SU as (SU1 & SU2 & SU3 & SU4 & SU5).
  set (c1 := {| committed := set_songplays (working ca) (songplays (working ca) ++ stored);
                working := set_songplays (working ca) (songplays (working ca) ++ stored);
                result_set := result_set ca |}).
  assert (Hfirst : process_log_file L fs filepath c = (Ok tt, c1)).
  { rewrite (process_log_file_unfold fs filepath evs c Hf Hne). fold kept.
    unfold before_copy. unfold bind at 1. unfold bind at 1. rewrite (HD c).
    unfold bind at 1. rewrite ET.
    unfold bind at 1. rewrite Hxs, EU. rewrite Hpre.
    unfold bind at 1.
    rewrite (copy_from_stringio_stored rows "songplays" (Some songplay_cols) ca
               {| committed := committed ca;
                  working := set_songplays (working ca) (songplays (working ca) ++ stored);
                  result_set := result_set ca |});
      [reflexivity|].
    rewrite copy_from_songplays. now rewrite Elines. }
  (* the second load *)
  assert (Htime1 : time (working c1) = time (working cT)).
  { unfold c1. cbn [working set_songplays time]. rewrite Hwa. exact SU4. }
  assert (Husers1 : users (working c1) = users (working cU)).
  { unfold c1. cbn [working set_songplays users]. now rewrite Hwa. }
  destruct (time_loop_settled kept c1) as (rsT & ET2).
  { intros e He. rewrite Htime1. now apply KT. }
  destruct (user_loop_present xs
              {| committed := committed c1; working := working c1; result_set := rsT |})
    as (cU2 & EU2 & SU' & Hkeys2).
  { intros x Hx. cbn [working]. rewrite Husers1. now apply KU. }
  destruct SU' as (SV1 & SV2 & SV3 & SV4 & SV5). cbn [working committed] in *.
  destruct (songplay_loop_catalog kept [] cU cU2 ca rows) as (_ & rsS & ES2);
    [ rewrite SV2; unfold c1; cbn [working set_songplays songs]; now rewrite Hwa
    | rewrite SV3; unfold c1; cbn [working set_songplays artists]; now rewrite Hwa
    | exact Hpre |].
  set (c2 := {| committed := set_songplays (working cU2) (songplays (working cU2) ++ stored);
                working := set_songplays (working cU2) (songplays (working cU2) ++ stored);
                result_set := rsS |}).
  assert (Hsecond : process_log_file L fs filepath c1 = (Ok tt, c2)).
  { rewrite (process_log_file_unfold fs filepath evs c1 Hf Hne). fold kept.
    unfold before_copy. unfold bind at 1. unfold bind at 1. rewrite (HD c1).
    unfold bind at 1. rewrite ET2.
    unfold bind at 1. rewrite Hxs, EU2. rewrite ES2.
    unfold bind at 1.
    rewrite (copy_from_stringio_stored rows "songplays" (Some songplay_cols)
               {| committed := committed cU2; working := working cU2; result_set := rsS |}
               {| committed := committed cU2;
                  working := set_songplays (working cU2) (songplays (working cU2) ++ stored);
                  result_set := rsS |});
      [reflexivity|].
    rewrite copy_from_songplays. now rewrite Elines. }
  exists stored, c1, c2.
  split; [exact Hfirst|]. split; [exact Hsecond|].
  split.
  { rewrite (copy_lines_length _ _ _ Elines). unfold to_csv. rewrite length_map.
    apply (for_fold_length (songplay_step L)) in Hpre; [exact Hpre|].
    intros acc x s acc' s'. apply songplay_step_length. }
  unfold c2, c1 in *. cbn [working committed set_songplays songplays time songs artists
                            users] in *.
  split; [rewrite Hwa; congruence|].
  split; [congruence|].
  split; [congruence|].
  split; [congruence|].
  split; [congruence|].
  split; [exact Hkeys2 | reflexivity].
Qed.

(* ----------------------------------------------------------------- *)
(** *** A kept row without user *)




End Properties.

(* ================================================================= *)
(** ** The properties on the example stores *)

(** C6 fails on the code: the checkpoint directory is given as the root,
    with a slash at its end.  Its path ends with the suffix, the [root]
    string of the walk does not, and the file in it is returned. *)
Lemma get_files_exclusion_counterexample :
  endswith "data/song_data/.ipynb_checkpoints" ".ipynb_checkpoints" = true
  /\ (exists es,
        Example.fs_songs "data/song_data/.ipynb_checkpoints" = Some (Dir es)
        /\ In "TRAAAAW128F429D538-checkpoint.json" (filenames es))
  /\ get_files Toy.library Example.fs_songs "data/song_data/.ipynb_checkpoints/" "*.json"
       (ExcludeStr ".ipynb_checkpoints")
     = Ok ["/home/workspace/data/song_data/.ipynb_checkpoints/TRAAAAW128F429D538-checkpoint.json";
           "/home/workspace/data/song_data/.ipynb_checkpoints/B/TRAAABD128F429CF47.json"].
Proof.
  split; [reflexivity|]. split; [|reflexivity].
  eexists. split; [reflexivity|]. simpl. now left.
Qed.

(** Walked from [data/song_data], the checkpoint directory of the example
    adds nothing, the directory inside it does. *)
Lemma get_files_exclusion_witness :
  get_files Toy.library Example.fs_songs "data/song_data" "*.json"
    (ExcludeStr ".ipynb_checkpoints")
  = Ok ["/home/workspace/data/song_data/A/TRAAAAW128F429D538.json";
        "/home/workspace/data/song_data/.ipynb_checkpoints/B/TRAAABD128F429CF47.json"].
Proof.
  destruct (@get_files_exclusion Toy.library Example.fs_songs "data/song_data" "*.json"
              ".ipynb_checkpoints") as [E _].
  - discriminate.
  - rewrite E. reflexivity.
Defined.


(** C7 fails on the code: the root [data/nope] is not there, and
    [get_files] returns the empty list. *)
Lemma get_files_missing_root_counterexample :
  Example.fs_songs "data/nope" = None
  /\ get_files Toy.library Example.fs_songs "data/nope" "*.json"
       (ExcludeStr ".ipynb_checkpoints") = Ok []
  /\ forall e, get_files Toy.library Example.fs_songs "data/nope" "*.json"
                 (ExcludeStr ".ipynb_checkpoints") <> Raise e.
Proof.
  split; [reflexivity|]. split; [reflexivity|]. intros e. discriminate.
Qed.

Lemma get_files_empty_witness :
  get_files Toy.library Example.fs_songs "data/nope" "*.json"
    (ExcludeStr ".ipynb_checkpoints") = Ok [].
Proof.
  apply (get_files_empty Toy.library Example.fs_songs "data/nope" "*.json"
           (ExcludeStr ".ipynb_checkpoints")).
  left. reflexivity.
Defined.

(** C3 fails on the code: a copy that succeeds is committed by
    [copy_from_stringio] itself. *)
Lemma copy_from_stringio_commits_counterexample :
  fst (copy_from_stringio Toy.library Example.one_songplay "songplays"
         (Some songplay_cols) Example.fresh) = Ok PNone
  /\ List.length (songplays (committed Example.fresh)) = 0
  /\ List.length
       (songplays
          (committed
             (snd (copy_from_stringio Toy.library Example.one_songplay "songplays"
                     (Some songplay_cols) Example.fresh)))) = 1
  /\ committed
       (snd (copy_from_stringio Toy.library Example.one_songplay "songplays"
               (Some songplay_cols) Example.fresh))
     <> committed Example.fresh.
Proof.
  split; [reflexivity|].
  split; [reflexivity|].
  split; [reflexivity|].
  intros H. apply (f_equal (fun t => List.length (songplays t))) in H.
  vm_compute in H. discriminate H.
Qed.

(** C4 fails on the code: the first of two log files has a play without
    [userAgent]; the run ends with the exception, nothing is committed, and
    the user of the second file is in no table, although that file alone is
    loaded well. *)
Lemma process_data_halts_counterexample :
  fst (process_data Toy.library Example.fs_two_logs "data/log_data"
         (process_log_file Toy.library Example.fs_two_logs) Example.fresh)
    = Raise AttributeError
  /\ committed
       (snd (process_data Toy.library Example.fs_two_logs "data/log_data"
               (process_log_file Toy.library Example.fs_two_logs) Example.fresh))
     = Example.no_tables
  /\ map u_user_id
       (users
          (working
             (snd (process_data Toy.library Example.fs_two_logs "data/log_data"
                     (process_log_file Toy.library Example.fs_two_logs) Example.fresh))))
     = [PInt 7]
  /\ map u_user_id
       (users
          (committed
             (snd (process_data Toy.library Example.fs_second_log_only "data/log_data"
                     (process_log_file Toy.library Example.fs_second_log_only)
                     Example.fresh))))
     = [PInt 8].
Proof.
  split; [reflexivity|].
  split; [reflexivity|].
  split; reflexivity.
Qed.

Lemma process_data_failure_witness :
  process_data Toy.library Example.fs_two_logs "data/log_data"
    (process_log_file Toy.library Example.fs_two_logs) Example.fresh
  = (Raise AttributeError,
     snd (process_log_file Toy.library Example.fs_two_logs
            "/home/workspace/data/log_data/2018-11-01-events.json" Example.fresh))
  /\ fst (process_log_file Toy.library Example.fs_bad_copy
            "/home/workspace/data/log_data/2018-11-01-events.json" Example.fresh)
     = Ok tt.
Proof.
  split.
  - apply (proj1 (process_data_failure Toy.library Example.fs_two_logs "data/log_data")
             (process_log_file Toy.library Example.fs_two_logs) Example.fresh []
             "/home/workspace/data/log_data/2018-11-01-events.json"
             ["/home/workspace/data/log_data/2018-11-02-events.json"]
             Example.fresh AttributeError); reflexivity.
  - pose proof
      (proj2 (process_data_failure Toy.library Example.fs_bad_copy "data/log_data")
         "/home/workspace/data/log_data/2018-11-01-events.json"
         ["/home/workspace/data/log_data/2018-11-02-events.json"]
         [Example.play_without_level 1000 7] Example.fresh
         Example.songplay_without_level
         (snd (before_copy Toy.library [Example.play_without_level 1000 7] Example.fresh))
         IntegrityError) as H.
    cbv zeta in H.
    destruct H as [H _]; [reflexivity .. |].
    rewrite H. reflexivity.
Defined.

Lemma process_song_file_complete_document_witness :
  process_song_file Toy.library Example.fs_songs
    "/home/workspace/data/song_data/A/TRAAAAW128F429D538.json" Example.fresh
  = (Raise IndexError, Example.fresh)
  /\ placeholders song_table_insert = 6.
Proof.
  apply (process_song_file_complete_document Toy.library Example.fs_songs
           "/home/workspace/data/song_data/A/TRAAAAW128F429D538.json"
           Example.song_doc Example.fresh).
  - reflexivity.
  - reflexivity.
Defined.

(** C1 on the code, at the example of the specification: user 7 is [free]
    at 1000 and [paid] at 2000.  After the run the stored level is [free],
    the level of the earlier event, in whichever order the file has the two
    events. *)
Theorem stored_level_is_earliest :
  map (fun u => (u_user_id u, u_level u))
    (users
       (committed
          (snd (process_data Toy.library Example.fs_two_levels "data/log_data"
                  (process_log_file Toy.library Example.fs_two_levels) Example.fresh))))
  = [(PInt 7, PStr "free")]
  /\ map (fun u => (u_user_id u, u_level u))
       (users
          (committed
             (snd (process_data Toy.library Example.fs_two_levels_swapped "data/log_data"
                     (process_log_file Toy.library Example.fs_two_levels_swapped)
                     Example.fresh))))
     = [(PInt 7, PStr "free")]
  /\ fst (process_data Toy.library Example.fs_two_levels "data/log_data"
            (process_log_file Toy.library Example.fs_two_levels) Example.fresh)
     = Ok tt.
Proof. split; [reflexivity|]. split; reflexivity. Qed.

Lemma user_upsert_conflict_witness :
  exists c',
    execute Toy.library user_table_insert
      [PInt 7; PStr "Lilian"; PStr "Cook"; PStr "M"; PStr "paid"] Example.loaded
    = (Ok tt, c')
    /\ level_overwritten Toy.library (PInt 7) (PStr "paid") Example.loaded c'.
Proof.
  apply (user_upsert_conflict Toy.library Example.loaded (PInt 7) (PStr "Lilian")
           (PStr "Cook") (PStr "M") (PStr "paid")).
  reflexivity.
Defined.

(** The row of user 7 after that statement: the names and the gender of
    the first insert, the level of the second. *)
Example user_upsert_conflict_row :
  users
    (working
       (snd (execute Toy.library user_table_insert
               [PInt 7; PStr "Lilian"; PStr "Cook"; PStr "M"; PStr "paid"]
               Example.loaded)))
  = [{| u_user_id := PInt 7; u_first_name := PStr "Lily"; u_last_name := PStr "Koch";
        u_gender := PStr "F"; u_level := PStr "paid" |}].
Proof. reflexivity. Qed.

Lemma catalog_load_idempotent_witness :
  execute Toy.library song_table_insert
    [PStr "SOUPIRU12A6D4FA1E1"; PStr "Another title"; PStr "ARXXXXX"; PInt 1999;
     PStr "1.0"; @PFloat Toy.library "1.0"] Example.loaded
  = (Ok tt, {| committed := committed Example.loaded; working := working Example.loaded;
               result_set := None |})
  /\ execute Toy.library artist_table_insert
       [PStr "ARJIE2Y1187B994AB7"; PStr "Another name"; PStr "Paris"; PNone; PNone]
       Example.loaded
     = (Ok tt, {| committed := committed Example.loaded; working := working Example.loaded;
                  result_set := None |})
  /\ exists rs,
       execute_all Toy.library Example.catalog_ops
         (snd (execute_all Toy.library Example.catalog_ops Example.fresh))
       = (Ok tt,
          {| committed :=
               committed (snd (execute_all Toy.library Example.catalog_ops Example.fresh));
             working :=
               working (snd (execute_all Toy.library Example.catalog_ops Example.fresh));
             result_set := rs |}).
Proof.
  destruct (catalog_load_idempotent Toy.library) as (Hsong & Hartist & Hall & _).
  split; [apply Hsong; reflexivity|].
  split; [apply Hartist; reflexivity|].
  apply (Hall Example.catalog_ops Example.fresh).
  - repeat constructor.
  - reflexivity.
Defined.

(** On a store that holds the song of the plays: a log file of two plays
    with a visit between them. *)
Lemma songplay_rows_enriched_witness :
  exists songplay_df ca,
    before_copy Toy.library
      (filter next_song
         [Example.play 1000 7 "free"; Example.visit 1500 7 "free";
          Example.play 2000 8 "paid"])
      Example.loaded
    = (Ok songplay_df, ca)
    /\ songs (working ca) = songs (working Example.loaded)
    /\ artists (working ca) = artists (working Example.loaded)
    /\ songplays (working ca) = songplays (working Example.loaded)
    /\ committed ca = committed Example.loaded
    /\ Forall2 (enriched Toy.library (working Example.loaded))
         (filter next_song
            [Example.play 1000 7 "free"; Example.visit 1500 7 "free";
             Example.play 2000 8 "paid"])
         songplay_df
    /\ process_log_file Toy.library Example.fs_with_visit
         "/home/workspace/data/log_data/2018-11-01-events.json" Example.loaded
       = (copy_from_stringio Toy.library songplay_df "songplays" (Some songplay_cols) ;;
          ret tt) ca.
Proof.
  apply (songplay_rows_enriched Toy.library Example.fs_with_visit
           "/home/workspace/data/log_data/2018-11-01-events.json"
           [Example.play 1000 7 "free"; Example.visit 1500 7 "free";
            Example.play 2000 8 "paid"]
           Example.loaded).
  - reflexivity.
  - discriminate.
  - reflexivity.
  - eexists. eexists. split; reflexivity.
  - intros e [<-|[<-|[<-|[]]]] _; eexists; reflexivity.
Defined.

(** The frame that [process_log_file] makes of that file for the bulk
    load: the visit has no row, each play has the ids of the loaded
    song. *)
Example songplay_rows_of_file :
  fst (before_copy Toy.library
         (filter next_song
            [Example.play 1000 7 "free"; Example.visit 1500 7 "free";
             Example.play 2000 8 "paid"])
         Example.loaded)
  = Ok [[PTimestamp 1000; PInt 7; PStr "free"; PStr "SOUPIRU12A6D4FA1E1";
         PStr "ARJIE2Y1187B994AB7"; PInt 818;
         PStr "Chicago-Naperville-Elgin, IL-IN-WI"; PStr "Mozilla/5.0"];
        [PTimestamp 2000; PInt 8; PStr "paid"; PStr "SOUPIRU12A6D4FA1E1";
         PStr "ARJIE2Y1187B994AB7"; PInt 818;
         PStr "Chicago-Naperville-Elgin, IL-IN-WI"; PStr "Mozilla/5.0"]].
Proof. reflexivity. Qed.

(** The fact row of a play of the loaded song carries its ids; with no
    song loaded both ids are [None]. *)
Example songplay_rows_ids :
  fst (for_fold [Example.play 1000 7 "free"] [] (songplay_step Toy.library) Example.loaded)
  = Ok [[PTimestamp 1000; PInt 7; PStr "free"; PStr "SOUPIRU12A6D4FA1E1";
         PStr "ARJIE2Y1187B994AB7"; PInt 818;
         PStr "Chicago-Naperville-Elgin, IL-IN-WI"; PStr "Mozilla/5.0"]]
  /\ fst (for_fold [Example.play 1000 7 "free"] [] (songplay_step Toy.library)
            Example.fresh)
     = Ok [[PTimestamp 1000; PInt 7; PStr "free"; PNone; PNone; PInt 818;
            PStr "Chicago-Naperville-Elgin, IL-IN-WI"; PStr "Mozilla/5.0"]].
Proof. split; reflexivity. Qed.

Lemma next_song_filter_witness :
  process_log_file Toy.library Example.fs_without_visit
    "/home/workspace/data/log_data/2018-11-01-events.json" Example.fresh
  = process_log_file Toy.library Example.fs_with_visit
      "/home/workspace/data/log_data/2018-11-01-events.json" Example.fresh
  /\ List.length
       (time_df Toy.library
          (filter next_song
             [Example.play 1000 7 "free"; Example.visit 1500 7 "free";
              Example.play 2000 8 "paid"]))
     = 2.
Proof.
  destruct (next_song_filter Toy.library Example.fs_with_visit
              "/home/workspace/data/log_data/2018-11-01-events.json"
              [Example.play 1000 7 "free"; Example.visit 1500 7 "free";
               Example.play 2000 8 "paid"]
              Example.fresh eq_refl)
    as (_ & _ & Hsame & Htime & _); [discriminate|].
  split.
  - apply (Hsame Example.fs_without_visit
             "/home/workspace/data/log_data/2018-11-01-events.json"
             [Example.play 1000 7 "free"; Example.play 2000 8 "paid"]);
      [reflexivity | discriminate | reflexivity].
  - rewrite Htime. reflexivity.
Defined.

(** C2 fails on the code: the first of two song files has no [title]; the
    [KeyError] of that file is the result of the whole run. *)
Lemma song_file_error_not_contained_counterexample :
  get_files Toy.library Example.fs_song_without_title "data/song_data" "*.json"
    (ExcludeStr ".ipynb_checkpoints")
  = Ok ["/home/workspace/data/song_data/TRAAAAW128F429D538.json";
        "/home/workspace/data/song_data/TRAAABD128F429CF47.json"]
  /\ process_data Toy.library Example.fs_song_without_title "data/song_data"
       (process_song_file Toy.library Example.fs_song_without_title) Example.fresh
     = (Raise (KeyError "title"), Example.fresh).
Proof. split; reflexivity. Qed.

Lemma song_file_missing_field_witness :
  process_song_file Toy.library Example.fs_song_without_title
    "/home/workspace/data/song_data/TRAAAAW128F429D538.json" Example.fresh
  = (Raise (KeyError "title"), Example.fresh)
  /\ process_data Toy.library Example.fs_song_without_title "data/song_data"
       (process_song_file Toy.library Example.fs_song_without_title) Example.fresh
     = (Raise (KeyError "title"), Example.fresh).
Proof.
  destruct (song_file_missing_field Toy.library Example.fs_song_without_title
              "/home/workspace/data/song_data/TRAAAAW128F429D538.json"
              Example.song_doc_without_title Example.fresh
              ["song_id"] ["artist_id"; "year"; "duration"] "title"
              eq_refl eq_refl eq_refl eq_refl) as [Hfile Hrun].
  split; [exact Hfile|].
  apply (Hrun "data/song_data"
           ["/home/workspace/data/song_data/TRAAABD128F429CF47.json"]).
  reflexivity.
Defined.

(* ----------------------------------------------------------------- *)
(** *** The helpers on small inputs *)

Example endswith_checkpoints :
  endswith "data/song_data/.ipynb_checkpoints" ".ipynb_checkpoints" = true
  /\ endswith "data/song_data/.ipynb_checkpoints/B" ".ipynb_checkpoints" = false
  /\ endswith "data" "" = true
  /\ endswith "ata" "data" = false.
Proof. repeat split. Qed.

Example path_join_cases :
  path_join "data/song_data" "A" = "data/song_data/A"
  /\ path_join "data/" "A" = "data/A"
  /\ path_join "" "A" = "A".
Proof. repeat split. Qed.

Example strip_quote_cases :
  strip_quote (String dquote ("Mozilla/5.0" ++ String dquote EmptyString)%string)
    = "Mozilla/5.0"
  /\ strip_quote (String dquote (String dquote ("a" ++ String dquote "b")%string))
     = ("a" ++ String dquote "b")%string
  /\ strip_quote "plain" = "plain".
Proof. repeat split. Qed.

Example placeholders_counted :
  map placeholders
    [user_table_insert; song_table_insert; artist_table_insert; time_table_insert;
     song_select]
  = [5; 6; 5; 7; 3].
Proof. reflexivity. Qed.

Example calendar_of_a_play :
  Toy.civil 1542241826796 = (2018, 11, 15)%Z
  /\ Toy.dt_hour 1542241826796 = 0%Z
  /\ Toy.dt_weekday 1542241826796 = 3%Z
  /\ Toy.dt_week 1542241826796 = 46%Z.
Proof. repeat split. Qed.

Example walk_of_the_songs :
  map (@walk_root) (os_walk Toy.library Example.fs_songs "data/song_data")
  = ["data/song_data"; "data/song_data/A"; "data/song_data/.ipynb_checkpoints";
     "data/song_data/.ipynb_checkpoints/B"].
Proof. reflexivity. Qed.

(* ----------------------------------------------------------------- *)
(** *** The further properties on the example stores *)

Lemma main_stops_at_first_song_file_witness :
  (exists e,
      main Toy.library Example.fs_songs Example.fresh = (Raise e, Example.fresh)
      /\ process_song_file Toy.library Example.fs_songs
           "/home/workspace/data/song_data/A/TRAAAAW128F429D538.json" Example.fresh
         = (Raise e, Example.fresh))
  /\ main Toy.library Example.fs_two_levels Example.fresh
     = process_data Toy.library Example.fs_two_levels "data/log_data"
         (process_log_file Toy.library Example.fs_two_levels) Example.fresh.
Proof.
  split.
  - apply (proj1 (main_stops_at_first_song_file Toy.library Example.fs_songs Example.fresh)
             "/home/workspace/data/song_data/A/TRAAAAW128F429D538.json"
             ["/home/workspace/data/song_data/.ipynb_checkpoints/B/TRAAABD128F429CF47.json"]).
    reflexivity.
  - apply (proj2 (main_stops_at_first_song_file Toy.library Example.fs_two_levels
                    Example.fresh)).
    reflexivity.
Defined.

Lemma process_data_nothing_found_witness :
  process_data Toy.library Example.fs_songs "data/nope"
    (process_song_file Toy.library Example.fs_songs) Example.loaded
  = (Ok tt, Example.loaded).
Proof.
  apply (process_data_nothing_found Toy.library Example.fs_songs "data/nope"
           (process_song_file Toy.library Example.fs_songs) Example.loaded).
  left. reflexivity.
Defined.

Lemma process_data_nothing_pending_witness :
  committed
    (snd (process_data Toy.library Example.fs_two_levels "data/log_data"
            (process_log_file Toy.library Example.fs_two_levels) Example.fresh))
  = working
      (snd (process_data Toy.library Example.fs_two_levels "data/log_data"
              (process_log_file Toy.library Example.fs_two_levels) Example.fresh)).
Proof.
  apply (process_data_nothing_pending Toy.library Example.fs_two_levels "data/log_data"
           (process_log_file Toy.library Example.fs_two_levels) Example.fresh
           (snd (process_data Toy.library Example.fs_two_levels "data/log_data"
                   (process_log_file Toy.library Example.fs_two_levels) Example.fresh))
           "/home/workspace/data/log_data/2018-11-01-events.json" []);
    reflexivity.
Defined.

Lemma process_log_file_transaction_witness :
  committed
    (snd (process_log_file Toy.library Example.fs_two_logs
            "/home/workspace/data/log_data/2018-11-01-events.json" Example.loaded))
  = committed Example.loaded.
Proof.
  apply (process_log_file_transaction Toy.library Example.fs_two_logs
           "/home/workspace/data/log_data/2018-11-01-events.json" Example.loaded
           (snd (process_log_file Toy.library Example.fs_two_logs
                   "/home/workspace/data/log_data/2018-11-01-events.json" Example.loaded))
           (Raise AttributeError)).
  reflexivity.
Defined.

Lemma process_log_file_no_plays_witness :
  process_log_file Toy.library Example.fs_visits_only
    "/home/workspace/data/log_data/2018-11-01-events.json" Example.loaded
  = (Ok tt, {| committed := working Example.loaded; working := working Example.loaded;
               result_set := result_set Example.loaded |}).
Proof.
  apply (process_log_file_no_plays Toy.library Example.fs_visits_only
           "/home/workspace/data/log_data/2018-11-01-events.json"
           [Example.visit 1000 7 "free"; Example.visit 1500 8 "paid"] Example.loaded).
  - reflexivity.
  - discriminate.
  - intros e [<-|[<-|[]]]; discriminate.
Defined.

(** A log file without lines: its frame has no [page]. *)
Example process_log_file_of_no_lines :
  process_log_file Toy.library Example.fs_no_lines
    "/home/workspace/data/log_data/2018-11-01-events.json" Example.loaded
  = (Raise AttributeError, Example.loaded).
Proof. reflexivity. Qed.

Lemma primary_keys_kept_witness :
  keyed Toy.library
    (snd (process_log_file Toy.library Example.fs_two_levels
            "/home/workspace/data/log_data/2018-11-01-events.json" Example.loaded)).
Proof.
  apply (proj1 (proj2 (primary_keys_kept Toy.library Example.fs_two_levels Example.loaded
                         (snd (process_log_file Toy.library Example.fs_two_levels
                                 "/home/workspace/data/log_data/2018-11-01-events.json"
                                 Example.loaded))
                         (conj eq_refl eq_refl)))
           "/home/workspace/data/log_data/2018-11-01-events.json" (Ok tt)).
  reflexivity.
Defined.


Lemma fact_rows_user_agent_witness :
  Forall2
    (fun (e : event Toy.library) row =>
       exists ua,
         userAgent e = PStr ua
         /\ nth_error row 7 = Some (PStr (strip_quote ua))
         /\ starts_with_quote (strip_quote ua) = false
         /\ ends_with_quote (strip_quote ua) = false)
    [Example.play 1000 7 "free"] Example.one_songplay
  /\ fst (for_fold
            [Example.play 1000 7 "free"; Example.broken_play 1500 7 "free";
             Example.play 2000 7 "paid"]
            [] (songplay_step Toy.library) Example.fresh)
     = Raise AttributeError.
Proof.
  split.
  - apply (proj1 (fact_rows_user_agent Toy.library [Example.play 1000 7 "free"]
                    Example.fresh)
             Example.one_songplay
             (snd (for_fold [Example.play 1000 7 "free"] []
                     (songplay_step Toy.library) Example.fresh))).
    reflexivity.
  - apply (proj2 (fact_rows_user_agent Toy.library
                    [Example.play 1000 7 "free"; Example.broken_play 1500 7 "free";
                     Example.play 2000 7 "paid"] Example.fresh)
             [Example.play 1000 7 "free"] (Example.broken_play 1500 7 "free")
             [Example.play 2000 7 "paid"]).
    + reflexivity.
    + intros x [<-|[]]. exists "Mozilla/5.0". reflexivity.
    + intros ua. discriminate.
Defined.

Lemma fact_rows_load_witness :
  (exists err,
      copy_from Toy.library (to_csv Example.songplay_without_level) "songplays"
        (Some songplay_cols) Example.loaded
      = (Raise err, Example.loaded))
  /\ copy_from_stringio Toy.library Example.songplay_without_level "songplays"
       (Some songplay_cols) Example.loaded
     = (Ok (PInt 1),
        {| committed := committed Example.loaded; working := committed Example.loaded;
           result_set := result_set Example.loaded |}).
Proof.
  apply (fact_rows_load Toy.library [Example.play_without_level 1000 7]
           Example.songplay_without_level Example.loaded).
  - repeat constructor. exists PNone, PNone, (PStr "Mozilla/5.0"). reflexivity.
  - exists (Example.play_without_level 1000 7). split; [now left | right; reflexivity].
Defined.

(** A fact row as it is stored: the store reads the fields of the line
    by the types of its columns, so the session id, an integer in the
    frame, is stored as text. *)
Example fact_row_stored :
  songplays
    (committed
       (snd (copy_from_stringio Toy.library Example.one_songplay "songplays"
               (Some songplay_cols) Example.fresh)))
  = [{| sp_start_time := PTimestamp 1000; sp_user_id := PInt 7;
        sp_level := PStr "free"; sp_song_id := PNone; sp_artist_id := PNone;
        sp_session_id := PStr "818";
        sp_location := PStr "Chicago-Naperville-Elgin, IL-IN-WI";
        sp_user_agent := PStr "Mozilla/5.0" |}].
Proof. reflexivity. Qed.

(** A frame whose [userId] is a column of floats, as it is when a line
    of the file has no value for it: the store does not read 7.0 as an
    integer, and the fact rows of the file are rolled back with its time
    and user rows. *)
Example float_user_id_rolled_back :
  fst (process_log_file Toy.library Example.fs_float_user
         "/home/workspace/data/log_data/2018-11-01-events.json" Example.fresh)
  = Ok tt
  /\ working
       (snd (process_log_file Toy.library Example.fs_float_user
               "/home/workspace/data/log_data/2018-11-01-events.json" Example.fresh))
     = Example.no_tables
  /\ committed
       (snd (process_log_file Toy.library Example.fs_float_user
               "/home/workspace/data/log_data/2018-11-01-events.json" Example.fresh))
     = Example.no_tables.
Proof. split; [reflexivity|]. split; reflexivity. Qed.

Lemma process_log_file_again_witness :
  exists stored c1 c2,
    process_log_file Toy.library Example.fs_two_levels
      "/home/workspace/data/log_data/2018-11-01-events.json" Example.fresh = (Ok tt, c1)
    /\ process_log_file Toy.library Example.fs_two_levels
         "/home/workspace/data/log_data/2018-11-01-events.json" c1 = (Ok tt, c2)
    /\ List.length stored = List.length (filter next_song Example.two_levels)
    /\ songplays (working c1) = songplays (working Example.fresh) ++ stored
    /\ songplays (working c2) = songplays (working c1) ++ stored
    /\ time (working c2) = time (working c1)
    /\ songs (working c2) = songs (working c1)
    /\ artists (working c2) = artists (working c1)
    /\ map u_user_id (users (working c2)) = map u_user_id (users (working c1))
    /\ committed c2 = working c2.
Proof.
  apply (process_log_file_again Toy.library Example.fs_two_levels
           "/home/workspace/data/log_data/2018-11-01-events.json"
           Example.two_levels Example.fresh
           (snd (before_copy Toy.library (filter next_song Example.two_levels)
                   Example.fresh))
           (snd (copy_from Toy.library (to_csv Example.two_levels_facts) "songplays"
                   (Some songplay_cols)
                   (snd (before_copy Toy.library (filter next_song Example.two_levels)
                           Example.fresh))))
           Example.two_levels_facts);
    first [reflexivity | discriminate].
Defined.

(** The fact table after the file of [two_levels] is loaded once and
    twice. *)
Example fact_rows_doubled :
  List.length
    (songplays
       (committed
          (snd (process_log_file Toy.library Example.fs_two_levels
                  "/home/workspace/data/log_data/2018-11-01-events.json" Example.fresh))))
  = 2
  /\ List.length
       (songplays
          (committed
             (snd (process_log_file Toy.library Example.fs_two_levels
                     "/home/workspace/data/log_data/2018-11-01-events.json"
                     (snd (process_log_file Toy.library Example.fs_two_levels
                             "/home/workspace/data/log_data/2018-11-01-events.json"
                             Example.fresh))))))
     = 4.
Proof. split; reflexivity. Qed.

